(** * FinOps recommendation service: identity matching, prompt building,
      recommendation synthesis and the offline fallback generator.

    The development embeds two TypeScript sources:
    - [validateCompanyUrlMatch] of [src/App.tsx];
    - the static methods of [AIRecommendationService]
      ([isValidApiKey], [getOpenAI], [buildEnhancedPrompt],
      [generateRecommendations], [getFallbackRecommendations],
      [getIndustryAnalysis]).

    JavaScript strings are modelled by [string]: a sequence of code units,
    each below 256.  Every string constant of the sources is ASCII. *)

From Stdlib Require Import Ascii String ZArith Lia Bool.
From stdpp Require Import base tactics option list strings gmap.

(** ** JavaScript string primitives *)

Module JS.

Definition code (c : ascii) : nat := nat_of_ascii c.

(** Membership in the character class [[a-z]]. *)
Definition is_lower_az (c : ascii) : bool :=
  (97 <=? code c)%nat && (code c <=? 122)%nat.

(** Membership in the character class [[0-9]]. *)
Definition is_digit (c : ascii) : bool :=
  (48 <=? code c)%nat && (code c <=? 57)%nat.

(** Membership in the character class [[a-z0-9]]. *)
Definition is_alnum (c : ascii) : bool := is_lower_az c || is_digit c.

(** Membership in [\s] (and the set removed by [trim]): TAB, LF, VT, FF,
    CR, SPACE and NBSP are the white space code units below 256. *)
Definition is_space (c : ascii) : bool :=
  ((9 <=? code c)%nat && (code c <=? 13)%nat)
  || (code c =? 32)%nat || (code c =? 160)%nat.

(** Membership in [[a-z0-9\s]]. *)
Definition is_alnum_or_space (c : ascii) : bool := is_alnum c || is_space c.

(** [String.prototype.toLowerCase] on one code unit: [A-Z] and the Latin-1
    capitals U+00C0..U+00DE (without U+00D7) move up by 32. *)
Definition lower_char (c : ascii) : ascii :=
  let n := code c in
  if ((65 <=? n)%nat && (n <=? 90)%nat)
     || ((192 <=? n)%nat && (n <=? 222)%nat && negb (n =? 215)%nat)
  then ascii_of_nat (n + 32) else c.

Fixpoint map (f : ascii -> ascii) (s : string) : string :=
  match s with
  | EmptyString => EmptyString
  | String c s' => String (f c) (map f s')
  end.

(** [s.replace(/[^CLASS]/g, '')]: keep the code units of the class. *)
Fixpoint keep (p : ascii -> bool) (s : string) : string :=
  match s with
  | EmptyString => EmptyString
  | String c s' => if p c then String c (keep p s') else keep p s'
  end.

Definition toLowerCase (s : string) : string := map lower_char s.

Fixpoint trimStart (s : string) : string :=
  match s with
  | EmptyString => EmptyString
  | String c s' => if is_space c then trimStart s' else s
  end.

Definition trimEnd (s : string) : string :=
  String.rev (trimStart (String.rev s)).

Definition trim (s : string) : string := trimEnd (trimStart s).

(** Truthiness of a string: only the empty string is falsy. *)
Definition truthy (s : string) : bool :=
  match s with EmptyString => false | String _ _ => true end.

(** [p] is a prefix of [s]. *)
Fixpoint has_prefix (p s : string) : bool :=
  match p, s with
  | EmptyString, _ => true
  | String a p', String b s' => if Ascii.eqb a b then has_prefix p' s' else false
  | String _ _, EmptyString => false
  end.

Fixpoint drop (n : nat) (s : string) : string :=
  match n, s with
  | O, _ => s
  | S n', String _ s' => drop n' s'
  | S _, EmptyString => EmptyString
  end.

(** [s.replace(/^p/, '')] for a literal [p]. *)
Definition drop_prefix (p s : string) : string :=
  if has_prefix p s then drop (String.length p) s else s.

(** [s.includes(t)]. *)
Fixpoint includes (s t : string) : bool :=
  if has_prefix t s then true
  else match s with
       | EmptyString => false
       | String _ s' => includes s' t
       end.

(** [s.split(sep)[0]] for a one-character separator. *)
Fixpoint before_first (sep : ascii) (s : string) : string :=
  match s with
  | EmptyString => EmptyString
  | String c s' => if Ascii.eqb c sep then EmptyString
                   else String c (before_first sep s')
  end.

(** [s.split(/\s+/)]: the pieces between maximal runs of white space; a
    run at either end of [s] leaves an empty piece there, and the empty
    string splits into one empty piece.  [cur] is the current piece,
    reversed; [in_ws] tells that the previous code unit was white space. *)
Fixpoint split_ws_go (cur : string) (in_ws : bool) (s : string) : list string :=
  match s with
  | EmptyString => [String.rev cur]
  | String c s' =>
      if is_space c
      then (if in_ws then split_ws_go cur true s'
            else String.rev cur :: split_ws_go EmptyString true s')
      else split_ws_go (String c cur) false s'
  end.

Definition split_ws (s : string) : list string :=
  split_ws_go EmptyString false s.

(** [words.join('')]. *)
Definition join_empty (l : list string) : string :=
  foldr String.append EmptyString l.

(** [l.join(sep)]. *)
Fixpoint join (sep : string) (l : list string) : string :=
  match l with
  | [] => EmptyString
  | [x] => x
  | x :: l' => x +:+ sep +:+ join sep l'
  end.

(** [word[0]] of a non-empty word, as a one-character string (of an empty
    word: [undefined], which no caller reaches). *)
Definition first_char (w : string) : string :=
  match w with
  | EmptyString => EmptyString
  | String c _ => String c EmptyString
  end.

(** Every code unit of [s] is in the class [p]. *)
Fixpoint every (p : ascii -> bool) (s : string) : bool :=
  match s with
  | EmptyString => true
  | String c s' => p c && every p s'
  end.

(** [word.length > 0]. *)
Definition nonempty (word : string) : bool := (0 <? String.length word)%nat.

(** [s.substring(0, n)]. *)
Fixpoint take (n : nat) (s : string) : string :=
  match n, s with
  | S n', String c s' => String c (take n' s')
  | _, _ => EmptyString
  end.

(** [s.replace(/PAT\n?/g, '')] for a non-empty literal [pat]: every
    occurrence of [pat], with the line feed that follows it if there is
    one, is removed; [skip] counts the code units of the current match
    still to be dropped. *)
Fixpoint remove_go (pat : string) (skip : nat) (s : string) : string :=
  match s with
  | EmptyString => EmptyString
  | String c s' =>
      match skip with
      | S k => remove_go pat k s'
      | O =>
          if has_prefix pat s
          then
            let after := drop (String.length pat) s in
            let line_feed := if has_prefix (String "010"%char EmptyString) after
                             then 1 else 0 in
            remove_go pat (String.length pat - 1 + line_feed) s'
          else String c (remove_go pat 0 s')
      end
  end.

Definition remove_with_line_feed (pat s : string) : string := remove_go pat 0 s.

End JS.

(** ** [validateCompanyUrlMatch] (src/App.tsx) *)

Module App.

(** The alternatives of [/(inc|corp|corporation|llc|ltd|limited|company|co)$/]. *)
Definition suffixes : list string :=
  ["inc"; "corp"; "corporation"; "llc"; "ltd"; "limited"; "company"; "co"].

Definition is_suffix_word (s : string) : bool :=
  existsb (String.eqb s) suffixes.

(** [s.replace(/(inc|...|co)$/g, '')]: the match starts at the leftmost
    position whose rest is one of the alternatives. *)
Fixpoint strip_suffix (s : string) : string :=
  if is_suffix_word s then EmptyString
  else match s with
       | EmptyString => EmptyString
       | String c s' => String c (strip_suffix s')
       end.

(** [s.replace(/^https?:\/\//g, '')]. *)
Definition strip_protocol (s : string) : string :=
  if JS.has_prefix "https://" s then JS.drop 8 s
  else if JS.has_prefix "http://" s then JS.drop 7 s
  else s.

Definition cleanCompanyName (companyName : string) : string :=
  strip_suffix
    (JS.keep (fun c => negb (JS.is_space c))
       (JS.keep JS.is_alnum_or_space (JS.toLowerCase companyName))).

Definition cleanUrl (websiteUrl : string) : string :=
  JS.keep JS.is_alnum
    (JS.before_first "."%char
       (JS.drop_prefix "www." (strip_protocol (JS.toLowerCase websiteUrl)))).

(** The [for (const word of companyWords)] loop; [true] when the loop
    returns from the function. *)
Fixpoint word_loop (urlParts : string) (companyWords : list string) : bool :=
  match companyWords with
  | [] => false
  | word :: rest =>
      let cleanWord := JS.keep JS.is_alnum word in
      if (3 <=? String.length cleanWord)%nat && JS.includes urlParts cleanWord
      then true
      else word_loop urlParts rest
  end.

Definition acronym_of (companyWords : list string) : string :=
  JS.join_empty
    (List.map JS.first_char
       (List.filter JS.nonempty companyWords)).

Definition validateCompanyUrlMatch (companyName websiteUrl : string) : bool :=
  if negb (JS.truthy (JS.trim companyName)) || negb (JS.truthy (JS.trim websiteUrl))
  then true
  else
    let cleanCompanyName := cleanCompanyName companyName in
    let cleanUrl := cleanUrl websiteUrl in
    if String.eqb cleanCompanyName cleanUrl then true
    else if (3 <=? String.length cleanCompanyName)%nat
            && (3 <=? String.length cleanUrl)%nat
            && (JS.includes cleanCompanyName cleanUrl
                || JS.includes cleanUrl cleanCompanyName)
    then true
    else
      let companyWords := JS.split_ws (JS.toLowerCase companyName) in
      let urlParts := cleanUrl in
      if word_loop urlParts companyWords then true
      else if (1 <? List.length companyWords)%nat
              && (let acronym := acronym_of companyWords in
                  (2 <=? String.length acronym)%nat
                  && JS.includes urlParts acronym)
      then true
      else false.

End App.

(** ** JSON values and [JSON.parse] *)

Module JSON.

(** A parsed JSON text.  A number literal is kept as the exact decimal
    [mantissa * 10 ^ exponent]; an object keeps its members in source
    order. *)
#[warnings="-register-all"]
Inductive value : Type :=
| Null
| Bool (b : bool)
| Number (mantissa exponent : Z)
| Str (s : string)
| Array (items : list value)
| Object (members : list (string * value)).

(** Result of a parsing function: a value and the unread input, a syntax
    error, recursion budget used up, or a [\u] escape above 255, which
    [string] cannot hold. *)
Inductive outcome (A : Type) : Type :=
| Parsed (a : A) (rest : string)
| Malformed
| Exhausted
| Unsupported.
Arguments Parsed {A} a rest.
Arguments Malformed {A}.
Arguments Exhausted {A}.
Arguments Unsupported {A}.

Definition dquote : ascii := "034"%char.
Definition backslash : ascii := "092"%char.

Definition is_ws (c : ascii) : bool :=
  let n := JS.code c in
  (n =? 32)%nat || (n =? 9)%nat || (n =? 10)%nat || (n =? 13)%nat.

Fixpoint skip_ws (s : string) : string :=
  match s with
  | EmptyString => EmptyString
  | String c s' => if is_ws c then skip_ws s' else s
  end.

Definition hex_digit (c : ascii) : option nat :=
  let n := JS.code c in
  if (48 <=? n)%nat && (n <=? 57)%nat then Some (n - 48)
  else if (65 <=? n)%nat && (n <=? 70)%nat then Some (n - 55)
  else if (97 <=? n)%nat && (n <=? 102)%nat then Some (n - 87)
  else None.

Inductive string_state : Type :=
| Plain
| Escaped
| Hex (remaining value : nat).

(** The characters of a string literal after its opening quote; [acc] is
    the decoded text so far, reversed. *)
Fixpoint string_body (st : string_state) (acc : string) (s : string)
  : outcome string :=
  match s with
  | EmptyString => Malformed
  | String c s' =>
      match st with
      | Plain =>
          if Ascii.eqb c dquote then Parsed (String.rev acc) s'
          else if Ascii.eqb c backslash then string_body Escaped acc s'
          else if (JS.code c <? 32)%nat then Malformed
          else string_body Plain (String c acc) s'
      | Escaped =>
          if Ascii.eqb c dquote || Ascii.eqb c backslash || Ascii.eqb c "/"
          then string_body Plain (String c acc) s'
          else if Ascii.eqb c "b" then string_body Plain (String "008" acc) s'
          else if Ascii.eqb c "f" then string_body Plain (String "012" acc) s'
          else if Ascii.eqb c "n" then string_body Plain (String "010" acc) s'
          else if Ascii.eqb c "r" then string_body Plain (String "013" acc) s'
          else if Ascii.eqb c "t" then string_body Plain (String "009" acc) s'
          else if Ascii.eqb c "u" then string_body (Hex 3 0) acc s'
          else Malformed
      | Hex k v =>
          match hex_digit c with
          | None => Malformed
          | Some d =>
              let v' := (16 * v + d)%nat in
              match k with
              | O => if (v' <? 256)%nat
                     then string_body Plain (String (ascii_of_nat v') acc) s'
                     else Unsupported
              | S k' => string_body (Hex k' v') acc s'
              end
          end
      end
  end%char.

(** A maximal run of decimal digits, as their values, and the rest. *)
Fixpoint digits (s : string) : list Z * string :=
  match s with
  | EmptyString => ([], EmptyString)
  | String c s' =>
      if JS.is_digit c
      then let '(ds, r) := digits s' in (Z.of_nat (JS.code c - 48) :: ds, r)
      else ([], s)
  end.

Definition decimal (ds : list Z) : Z :=
  fold_left (fun acc d => (10 * acc + d)%Z) ds 0%Z.

Definition sign (s : string) : bool * string :=
  match s with
  | String c s' => if Ascii.eqb c "-" then (true, s') else (false, s)
  | EmptyString => (false, s)
  end%char.

Definition exponent_part (s : string) : outcome Z :=
  match s with
  | String c s' =>
      if Ascii.eqb c "e" || Ascii.eqb c "E" then
        let '(neg, s1) :=
          match s' with
          | String d s'' =>
              if Ascii.eqb d "+" then (false, s'')
              else if Ascii.eqb d "-" then (true, s'') else (false, s')
          | EmptyString => (false, s')
          end in
        match digits s1 with
        | ([], _) => Malformed
        | (ds, r) => Parsed (if neg then - decimal ds else decimal ds)%Z r
        end
      else Parsed 0%Z s
  | EmptyString => Parsed 0%Z s
  end%char.

(** A number literal: optional minus, an integer part without a leading
    zero, an optional fraction, an optional exponent. *)
Definition number (s : string) : outcome value :=
  let '(neg, s0) := sign s in
  match digits s0 with
  | ([], _) => Malformed
  | (d :: ds, s1) =>
      if (d =? 0)%Z && negb (Nat.eqb (List.length ds) 0) then Malformed
      else
        let with_fraction (fs : list Z) (s2 : string) :=
          match exponent_part s2 with
          | Parsed e r =>
              let m := decimal ((d :: ds) ++ fs) in
              Parsed (Number (if neg then - m else m)
                             (e - Z.of_nat (List.length fs))) r
          | Malformed => Malformed
          | Exhausted => Exhausted
          | Unsupported => Unsupported
          end in
        match s1 with
        | String c s1' =>
            if Ascii.eqb c "."
            then match digits s1' with
                 | ([], _) => Malformed
                 | (fs, s2) => with_fraction fs s2
                 end
            else with_fraction [] s1
        | EmptyString => with_fraction [] s1
        end
  end%char.

(** Recursive descent over values, array elements and object members;
    every call spends one unit of [fuel]. *)
Fixpoint parse_value (fuel : nat) (s : string) : outcome value :=
  match fuel with
  | O => Exhausted
  | S fuel' =>
      match skip_ws s with
      | EmptyString => Malformed
      | String c r =>
          if Ascii.eqb c "{" then
            match skip_ws r with
            | String c' r' =>
                if Ascii.eqb c' "}" then Parsed (Object []) r'
                else parse_members fuel' [] r
            | EmptyString => Malformed
            end
          else if Ascii.eqb c "[" then
            match skip_ws r with
            | String c' r' =>
                if Ascii.eqb c' "]" then Parsed (Array []) r'
                else parse_elements fuel' [] r
            | EmptyString => Malformed
            end
          else if Ascii.eqb c dquote then
            match string_body Plain EmptyString r with
            | Parsed str r' => Parsed (Str str) r'
            | Malformed => Malformed
            | Exhausted => Exhausted
            | Unsupported => Unsupported
            end
          else if JS.has_prefix "true" (String c r) then Parsed (Bool true) (JS.drop 4 (String c r))
          else if JS.has_prefix "false" (String c r) then Parsed (Bool false) (JS.drop 5 (String c r))
          else if JS.has_prefix "null" (String c r) then Parsed Null (JS.drop 4 (String c r))
          else number (String c r)
      end
  end%char

with parse_elements (fuel : nat) (acc : list value) (s : string) : outcome value :=
  match fuel with
  | O => Exhausted
  | S fuel' =>
      match parse_value fuel' s with
      | Parsed v r =>
          match skip_ws r with
          | String c r' =>
              if Ascii.eqb c "," then parse_elements fuel' (v :: acc) r'
              else if Ascii.eqb c "]" then Parsed (Array (List.rev (v :: acc))) r'
              else Malformed
          | EmptyString => Malformed
          end
      | other => other
      end
  end%char

with parse_members (fuel : nat) (acc : list (string * value)) (s : string)
  : outcome value :=
  match fuel with
  | O => Exhausted
  | S fuel' =>
      match skip_ws s with
      | String c r =>
          if Ascii.eqb c dquote then
            match string_body Plain EmptyString r with
            | Parsed key r1 =>
                match skip_ws r1 with
                | String c1 r2 =>
                    if Ascii.eqb c1 ":" then
                      match parse_value fuel' r2 with
                      | Parsed v r3 =>
                          match skip_ws r3 with
                          | String c3 r4 =>
                              if Ascii.eqb c3 ","
                              then parse_members fuel' ((key, v) :: acc) r4
                              else if Ascii.eqb c3 "}"
                              then Parsed (Object (List.rev ((key, v) :: acc))) r4
                              else Malformed
                          | EmptyString => Malformed
                          end
                      | other => other
                      end
                    else Malformed
                | EmptyString => Malformed
                end
            | Malformed => Malformed
            | Exhausted => Exhausted
            | Unsupported => Unsupported
            end
          else Malformed
      | EmptyString => Malformed
      end
  end%char.

(** A complete JSON text: one value, white space around it, nothing else. *)
Definition parse_text (s : string) : outcome value :=
  match parse_value (2 * String.length s + 2) s with
  | Parsed v r =>
      match skip_ws r with
      | EmptyString => Parsed v EmptyString
      | String _ _ => Malformed
      end
  | other => other
  end.

Definition well_formed (s : string) : bool :=
  match parse_text s with Parsed _ _ => true | _ => false end.

(** Property lookup [o.key] on a parsed object: the last member of that
    name wins; [None] is [undefined]. *)
Fixpoint member (key : string) (ms : list (string * value)) : option value :=
  match ms with
  | [] => None
  | (k, v) :: ms' =>
      match member key ms' with
      | Some v' => Some v'
      | None => if String.eqb k key then Some v else None
      end
  end.

(** Truthiness of a JSON value. *)
Definition truthy (v : value) : bool :=
  match v with
  | Null => false
  | Bool b => b
  | Number m _ => negb (m =? 0)%Z
  | Str s => JS.truthy s
  | Array _ => true
  | Object _ => true
  end.

End JSON.

(** ** The intelligence record of the web research service *)

Module WebResearch.

(** Modelled from the spec: [CompanyIntelligence] is declared in
    [./webResearch], which is not among the sources; its fields are the
    ones the data model lists and the service reads. *)
Record StockPerformance : Type := { summary : string }.

Record CompanyIntelligence : Type := {
  companyName : string;
  industry : string;
  businessModel : string;
  techStack : list string;
  recentNews : list string;
  cloudUsageIndicators : list string;
  stockPerformance : option StockPerformance
}.

End WebResearch.

(** ** [AIRecommendationService] *)

Module Service.

Import WebResearch (CompanyIntelligence).

Record CompanyContext : Type := {
  companyName : string;
  websiteUrl : string;
  email : string;
  ppa : bool;
  genAI : bool;
  cloudCostConcerns : bool
}.

Record UnitMetric : Type := {
  title : string;
  description : string
}.

Record AIRecommendation : Type := {
  unitMetrics : list UnitMetric;
  conversationStarters : list string;
  conditionalInsights : gmap string (list string)
}.

(** *** Thrown values, console output and external calls *)

Record JsError : Type := { name : string; message : string }.

(** [new Error(message)]. *)
Definition new_Error (message : string) : JsError :=
  {| name := "Error"; message := message |}.

(** [Error.prototype.toString], as the template literal [${error}] uses it. *)
Definition toString (e : JsError) : string :=
  if negb (JS.truthy (name e)) then message e
  else if negb (JS.truthy (message e)) then name e
  else name e +:+ ": " +:+ message e.

Inductive Result (A : Type) : Type :=
| Return (a : A)
| Throw (e : JsError).
Arguments Return {A} a.
Arguments Throw {A} e.

(** The client object of [new OpenAI({ apiKey, dangerouslyAllowBrowser })]. *)
Record OpenAI : Type := {
  apiKey : option string;
  dangerouslyAllowBrowser : bool
}.

Record Message : Type := { content : option string }.
Record Choice : Type := { message_of : option Message }.
Record Completion : Type := { choices : list Choice }.

(** The process environment and the external collaborators: the web
    intelligence gatherer, the two text providers and the platform's
    [JSON.parse].  Each either returns or throws. *)
Record World : Type := {
  VITE_OPENAI_API_KEY : option string;
  VITE_AWS_ACCESS_KEY_ID : option string;
  VITE_AWS_SECRET_ACCESS_KEY : option string;
  gatherCompanyIntelligence : string -> string -> Result CompanyIntelligence;
  invokeClaude : string -> Result string;
  chat_completions_create : OpenAI -> JSON.value -> Result Completion;
  JSON_parse : string -> Result JSON.value
}.

Inductive LogArg : Type :=
| LStr (s : string)
| LMaybe (s : option string)
| LErr (e : JsError)
| LObj (fields : list (string * string)).

Inductive Event : Type :=
| ConsoleLog (args : list LogArg)
| ConsoleWarn (args : list LogArg)
| ConsoleError (args : list LogArg)
| GatherCall (companyName websiteUrl : string)
| BedrockCall (prompt : string)
| OpenAICall (client : OpenAI) (request : JSON.value).

(** [true] on the events that reach an external collaborator. *)
Definition is_external_call (e : Event) : bool :=
  match e with
  | GatherCall _ _ | BedrockCall _ | OpenAICall _ _ => true
  | ConsoleLog _ | ConsoleWarn _ | ConsoleError _ => false
  end.

Definition is_gather_call (e : Event) : bool :=
  match e with GatherCall _ _ => true | _ => false end.

Definition is_bedrock_call (e : Event) : bool :=
  match e with BedrockCall _ => true | _ => false end.

(** The mutable state a request can touch: the static [openai] handle and
    what happened so far, oldest event first. *)
Record State : Type := {
  openai : option OpenAI;
  events : list Event
}.

(** *** A state and exception monad for the [async] methods *)

Definition M (A : Type) : Type := State -> Result A * State.

Definition ret {A} (a : A) : M A := fun st => (Return a, st).

Definition throw {A} (e : JsError) : M A := fun st => (Throw e, st).

Definition bind {A B} (m : M A) (k : A -> M B) : M B :=
  fun st =>
    match m st with
    | (Return a, st') => k a st'
    | (Throw e, st') => (Throw e, st')
    end.

(** [try { m } catch (error) { handler error }]. *)
Definition try_catch {A} (m : M A) (handler : JsError -> M A) : M A :=
  fun st =>
    match m st with
    | (Return a, st') => (Return a, st')
    | (Throw e, st') => handler e st'
    end.

#[global] Instance M_ret : MRet M := @ret.
#[global] Instance M_bind : MBind M := fun A B k m => bind m k.

Definition emit (e : Event) : M unit :=
  fun st => (Return tt, {| openai := openai st; events := events st ++ [e] |}).

Definition lift {A} (r : Result A) : M A := fun st => (r, st).

(** Run a request and keep what it did, from a given static handle. *)
Definition run {A} (m : M A) (handle : option OpenAI) : Result A * State :=
  m {| openai := handle; events := [] |}.

(** *** [isValidApiKey] *)

Definition isValidApiKey (key : option string) : bool :=
  match key with
  | None => false
  | Some key =>
      JS.truthy key
      && negb (String.eqb (JS.trim key) "")
      && negb (JS.includes key "your_")
      && (20 <? String.length key)%nat
  end.

(** Truthiness of [string | undefined]. *)
Definition is_set (key : option string) : bool :=
  match key with
  | None => false
  | Some key => JS.truthy key
  end.

(** *** [getOpenAI] *)

Definition getOpenAI (w : World) : M OpenAI :=
  fun st =>
    match openai st with
    | Some client => (Return client, st)
    | None =>
        let apiKey := VITE_OPENAI_API_KEY w in
        if negb (isValidApiKey apiKey)
        then (Throw (new_Error "Please configure a valid OpenAI API key in your .env.local file. Get your API key from https://platform.openai.com/api-keys"), st)
        else
          let client := {| apiKey := apiKey; dangerouslyAllowBrowser := true |} in
          (Return client, {| openai := Some client; events := events st |})
    end.

(** *** [buildEnhancedPrompt] *)

Definition nl : string := String "010"%char EmptyString.
Definition dq : string := String JSON.dquote EmptyString.

(** A double-quoted piece of the prompt text. *)
Definition q (s : string) : string := dq +:+ s +:+ dq.

Definition lines (l : list string) : string := JS.join nl l.

(** The text between the braces of the [conditionalInsights] member of
    the schema the prompt ends with. *)
Definition conditionalInsightsLines (ppa genAI cloudCostConcerns : bool)
  : list string :=
  [ "    " +:+ (if ppa then q "ppa" +:+ ": [" +:+ q "PPA question 1" +:+ ", " +:+ q "PPA question 2" +:+ ", " +:+ q "PPA question 3" +:+ "]," else "");
    "    " +:+ (if genAI then q "genAI" +:+ ": [" +:+ q "GenAI question 1" +:+ ", " +:+ q "GenAI question 2" +:+ ", " +:+ q "GenAI question 3" +:+ "]," else "");
    "    " +:+ (if cloudCostConcerns then q "cloudCostConcerns" +:+ ": [" +:+ q "Cost concern 1" +:+ ", " +:+ q "Cost concern 2" +:+ ", " +:+ q "Cost concern 3" +:+ "]" else "") ].

(** The structure the prompt asks the provider to return: the lines from
    the opening to the closing brace. *)
Definition schemaLines (companyName : string) (ppa genAI cloudCostConcerns : bool)
  : list string :=
  [ "{";
    "  " +:+ q "unitMetrics" +:+ ": [";
    "    {";
    "      " +:+ q "title" +:+ ": " +:+ q ("Cost per [specific unit for " +:+ companyName +:+ "]") +:+ ",";
    "      " +:+ q "description" +:+ ": " +:+ q "Detailed explanation of why this metric matters for their business, how it connects to business value, and what cost efficiency insights it reveals";
    "    }";
    "  ],";
    "  " +:+ q "conversationStarters" +:+ ": [";
    "    " +:+ q ("Strategic question 1 for " +:+ companyName) +:+ ",";
    "    " +:+ q ("Strategic question 2 for " +:+ companyName) +:+ ",";
    "    " +:+ q ("Strategic question 3 for " +:+ companyName);
    "  ],";
    "  " +:+ q "conditionalInsights" +:+ ": {" ]
  ++ conditionalInsightsLines ppa genAI cloudCostConcerns
  ++ [ "  }";
       "}" ].

Definition buildEnhancedPrompt (context : CompanyContext)
  (intelligence : CompanyIntelligence) (industryAnalysis : string) : string :=
  let companyName := companyName context in
  let websiteUrl := websiteUrl context in
  let ppa := ppa context in
  let genAI := genAI context in
  let cloudCostConcerns := cloudCostConcerns context in
  let prompt := lines
    [ "You are a FinOps strategy assistant with access to current company intelligence and industry analysis.";
      "";
      "Company Information:";
      "- Company Name: " +:+ companyName;
      "- Website: " +:+ (if JS.truthy websiteUrl then websiteUrl else "Not provided");
      "- Industry: " +:+ WebResearch.industry intelligence;
      "- Business Model: " +:+ WebResearch.businessModel intelligence;
      "- Tech Stack: " +:+ JS.join ", " (WebResearch.techStack intelligence);
      "";
      "Recent Company Intelligence:";
      "- Recent News: " +:+ JS.join "; " (WebResearch.recentNews intelligence);
      "- Cloud Usage Patterns: " +:+ JS.join "; " (WebResearch.cloudUsageIndicators intelligence);
      (match WebResearch.stockPerformance intelligence with Some sp => "- Stock Performance: " +:+ WebResearch.summary sp | None => "" end);
      "";
      "Industry Analysis:";
      industryAnalysis;
      "";
      "Focus Areas Selected:";
      "- Private Pricing Agreement (PPA): " +:+ (if ppa then "Yes" else "No");
      "- Generative AI: " +:+ (if genAI then "Yes" else "No");
      "- Cloud Cost Concerns: " +:+ (if cloudCostConcerns then "Yes" else "No");
      "";
      "Please provide a structured response with the following sections:";
      "";
      "1. **Unit Cost Metrics (4-5 recommendations)**";
      "   - Suggest 4-5 relevant unit cost metrics tailored to " +:+ companyName +:+ "'s business";
      "   - For each metric, provide a clear title and 2-3 sentence explanation that includes:";
      "     * Why this metric matters for their specific business model";
      "     * How it connects to business value and decision-making";
      "     * What insights it can reveal about cost efficiency";
      "   - Consider the company's likely industry and business model";
      "   - Make recommendations specific and actionable";
      "";
      "2. **FinOps Conversation Starters (3 questions)**";
      "   - Provide 3 strategic, open-ended questions to open FinOps discussions with " +:+ companyName;
      "   - Each question should be 2-3 sentences that include context about why this matters for their business";
      "   - Focus on usage-based cost transparency, business value alignment, and strategic decision-making";
      "   - Include specific examples or scenarios relevant to their industry and business model";
      "   - Keep tone consultative and educational, not salesy";
      "   - Make questions thought-provoking and discussion-worthy";
      "";
      "3. **Conditional Insights (only if applicable)**" ] in
  let prompt :=
    if ppa then prompt +:+ nl +:+ "   - **PPA Discussion Starters**: 3 strategic questions about private pricing agreements and committed use optimization for " +:+ companyName +:+ ". Each should be 2-3 sentences explaining the context and why PPAs matter for their specific situation, including potential savings scenarios and commitment strategies."
    else prompt in
  let prompt :=
    if genAI then prompt +:+ nl +:+ "   - **GenAI-Specific FinOps Insights**: 3 strategic questions about GPU costs, model training, and AI infrastructure optimization for " +:+ companyName +:+ ". Each should be 2-3 sentences providing context about GenAI cost patterns, optimization opportunities, and how to align AI spending with business outcomes."
    else prompt in
  let prompt :=
    if cloudCostConcerns then prompt +:+ nl +:+ "   - **Cloud Cost Risk Signals**: 3 strategic questions about cost visibility, budget overruns, and cost optimization for " +:+ companyName +:+ ". Each should be 2-3 sentences explaining common cost risk patterns, warning signs to watch for, and proactive strategies for cost management."
    else prompt in
  let prompt := prompt +:+ nl +:+ lines
    ([ "";
       "Please return your response as a valid JSON object with this exact structure:" ]
     ++ schemaLines companyName ppa genAI cloudCostConcerns
     ++ [ "";
          "Make all recommendations highly specific to " +:+ companyName +:+ " and their likely business model. Avoid generic advice." ]) in
  prompt.

(** *** [getIndustryAnalysis] *)

Definition industryPrompt (intelligence : CompanyIntelligence) : string :=
  lines
  [ "Analyze this company's industry context and provide insights for FinOps strategy:";
    "";
    "Company: " +:+ WebResearch.companyName intelligence;
    "Industry: " +:+ WebResearch.industry intelligence;
    "Business Model: " +:+ WebResearch.businessModel intelligence;
    "Tech Stack: " +:+ JS.join ", " (WebResearch.techStack intelligence);
    "Recent News: " +:+ JS.join "; " (WebResearch.recentNews intelligence);
    "Cloud Usage Indicators: " +:+ JS.join "; " (WebResearch.cloudUsageIndicators intelligence);
    (match WebResearch.stockPerformance intelligence with Some sp => "Stock Performance: " +:+ WebResearch.summary sp | None => "" end);
    "";
    "Provide a 2-3 sentence analysis of their likely cloud cost patterns, infrastructure needs, and FinOps priorities based on this context." ].

Definition industryFallback (intelligence : CompanyIntelligence) : string :=
  "Based on " +:+ WebResearch.companyName intelligence +:+ "'s " +:+ WebResearch.industry intelligence +:+ " industry focus and " +:+ WebResearch.businessModel intelligence +:+ " business model, they likely have significant cloud infrastructure needs with potential for cost optimization through unit economics and usage-based monitoring.".

Definition getIndustryAnalysis (w : World) (intelligence : CompanyIntelligence)
  : M string :=
  let prompt := industryPrompt intelligence in
  try_catch
    (emit (BedrockCall prompt);; lift (invokeClaude w prompt))
    (fun error =>
       emit (ConsoleWarn [LStr "Bedrock analysis failed, using fallback:"; LErr error]);;
       ret (industryFallback intelligence)).

(** *** [getFallbackRecommendations] *)

(** The array assigned to [conditionalInsights.ppa]. *)
Definition ppaInsights (companyName : string) : list string :=
  [ "How might " +:+ companyName +:+ " leverage committed use discounts and reserved instances to reduce baseline infrastructure costs? Understanding your predictable workload patterns can unlock significant savings through AWS Enterprise Discount Programs or similar commitment-based pricing models. This is especially valuable for companies with steady growth trajectories.";
    "What's " +:+ companyName +:+ "'s strategy for balancing flexibility with cost savings in your private pricing agreements? While PPAs can offer substantial discounts, they require careful capacity planning and usage forecasting. The key is identifying which workloads are predictable enough to commit to while maintaining agility for growth and experimentation.";
    "How does " +:+ companyName +:+ " measure and optimize the ROI of your committed cloud spending? Tracking metrics like commitment utilization rates and cost per committed unit helps ensure you're maximizing the value of your private pricing agreements. This becomes increasingly important as your infrastructure needs evolve and scale." ].

(** The array assigned to [conditionalInsights.genAI]. *)
Definition genAIInsights (companyName : string) : list string :=
  [ "How is " +:+ companyName +:+ " managing the unpredictable cost patterns of GPU-intensive AI workloads? GenAI applications often have highly variable compute needs, making traditional cost forecasting challenging. Understanding cost per inference, training job, or model iteration helps teams optimize both performance and spending in this rapidly evolving space.";
    "What's " +:+ companyName +:+ "'s approach to balancing model performance with infrastructure costs for AI features? The choice between different model sizes, inference methods, and hosting strategies can dramatically impact both user experience and cloud spending. Tracking unit costs helps teams make informed trade-offs between capability and cost-effectiveness.";
    "How does " +:+ companyName +:+ " optimize costs across the AI development lifecycle from experimentation to production? GenAI projects often involve significant compute costs for data processing, model training, fine-tuning, and inference. Understanding the cost structure of each phase helps teams allocate resources efficiently and identify optimization opportunities throughout the development process." ].

(** The array assigned to [conditionalInsights.cloudCostConcerns]. *)
Definition cloudCostInsights (companyName : string) : list string :=
  [ "What early warning signals does " +:+ companyName +:+ " monitor to prevent cloud cost overruns? Implementing automated alerts for unusual spending patterns, resource utilization thresholds, and budget variance can help teams catch cost issues before they become significant problems. This proactive approach is essential for maintaining predictable unit economics.";
    "How does " +:+ companyName +:+ " ensure cost visibility and accountability across different teams and projects? Without proper cost allocation and chargeback mechanisms, it's difficult to identify which initiatives are driving cloud spending and whether that spending is justified by business value. Clear cost attribution helps teams make more responsible resource decisions.";
    "What's " +:+ companyName +:+ "'s strategy for rightsizing resources and eliminating waste in your cloud infrastructure? Regular audits of unused resources, oversized instances, and inefficient architectures often reveal 15-25% cost reduction opportunities. The key is establishing processes to continuously optimize resource allocation as your application and usage patterns evolve." ].

Definition getFallbackRecommendations (context : CompanyContext) : AIRecommendation :=
  let companyName := companyName context in
  let baseRecommendations :=
    {| unitMetrics :=
         [ {| title := "Cost per " +:+ companyName +:+ " customer transaction";
              description := "Monitor the total infrastructure cost for each customer transaction or core business action at " +:+ companyName +:+ ". This metric directly connects cloud spending to revenue-generating activities, helping you understand the true cost of serving customers and identify optimization opportunities that improve profit margins. It's essential for maintaining healthy unit economics as you scale." |};
           {| title := "Cost per " +:+ companyName +:+ " service delivery";
              description := "Track infrastructure costs associated with delivering your core product or service to customers. For " +:+ companyName +:+ ", this means understanding how much it costs to fulfill each customer request, process each order, or deliver each unit of value. This business-focused metric helps align technical spending with customer satisfaction and operational efficiency." |};
           {| title := "Cost per " +:+ companyName +:+ " customer acquisition";
              description := "Measure the infrastructure costs associated with onboarding and serving new customers during their first month at " +:+ companyName +:+ ". This metric helps you understand the true cost of growth and ensures that customer acquisition costs remain sustainable. It's particularly valuable for identifying whether your platform can profitably scale with new customer growth." |};
           {| title := "Cost per " +:+ companyName +:+ " business outcome";
              description := "Track infrastructure costs per key business result - whether that's completed orders, successful deliveries, processed payments, or other core value-creating activities for " +:+ companyName +:+ ". This metric ensures that technology spending directly supports business objectives and helps identify which operational processes are most cost-effective to scale." |};
           {| title := "Cost per " +:+ companyName +:+ " customer success milestone";
              description := "Monitor infrastructure costs for key customer journey milestones - from initial signup through product adoption and ongoing engagement. For " +:+ companyName +:+ ", this helps identify which stages of the customer lifecycle are most expensive to support and where optimization efforts will have the biggest impact on customer lifetime value and retention." |} ];
       conversationStarters :=
         [ "How does " +:+ companyName +:+ " ensure infrastructure costs scale proportionally with user growth and product value? Many companies find that as they scale, their cloud costs grow faster than revenue, often due to inefficient resource allocation or lack of usage-based monitoring. Understanding this relationship early helps prevent costly surprises and enables data-driven scaling decisions that align with your business model.";
           "Are your development teams at " +:+ companyName +:+ " empowered with cost visibility to make efficient architecture decisions? When engineers can see the cost impact of their choices in real-time, they naturally optimize for efficiency without sacrificing performance. This visibility often leads to 20-30% cost reductions through better resource selection and usage patterns, especially important as your team grows.";
           "Would unit cost metrics help " +:+ companyName +:+ " align engineering priorities with business profitability goals? By connecting infrastructure spending to business outcomes like customer acquisition cost or revenue per user, teams can make more strategic decisions about where to invest their optimization efforts and which features truly drive value for your specific market and customer base." ];
       conditionalInsights := ∅ |} in
  let baseRecommendations :=
    if ppa context then
      {| unitMetrics := unitMetrics baseRecommendations;
         conversationStarters := conversationStarters baseRecommendations;
         conditionalInsights :=
           <["ppa" := ppaInsights companyName]>
             (conditionalInsights baseRecommendations) |}
    else baseRecommendations in
  let baseRecommendations :=
    if genAI context then
      {| unitMetrics := unitMetrics baseRecommendations;
         conversationStarters := conversationStarters baseRecommendations;
         conditionalInsights :=
           <["genAI" := genAIInsights companyName]>
             (conditionalInsights baseRecommendations) |}
    else baseRecommendations in
  let baseRecommendations :=
    if cloudCostConcerns context then
      {| unitMetrics := unitMetrics baseRecommendations;
         conversationStarters := conversationStarters baseRecommendations;
         conditionalInsights :=
           <["cloudCostConcerns" := cloudCostInsights companyName]>
             (conditionalInsights baseRecommendations) |}
    else baseRecommendations in
  baseRecommendations.

(** *** [generateRecommendations] *)

(** The errors the method throws itself, under the names the design
    gives them. *)
Definition CredentialError (w : World) : JsError :=
  new_Error ("OpenAI API key is invalid or missing. Please check your .env.local file. Current key: "
             +:+ (if is_set (VITE_OPENAI_API_KEY w) then "Set but invalid" else "Not set")).

Definition ProviderResponseError : JsError := new_Error "No response from OpenAI".

Definition ParseError (parseError : JsError) : JsError :=
  new_Error ("Failed to parse AI response as JSON: " +:+ toString parseError).

Definition SchemaValidationError : JsError :=
  new_Error "Invalid response structure from AI".

(** The text [raw] can be read off the thrown error: an [Error] object
    holds a name and a message and nothing else. *)
Definition carries_text (e : JsError) (raw : string) : bool :=
  JS.includes (message e) raw || JS.includes (name e) raw.

(** The first argument of [openai.chat.completions.create]. *)
Definition chatRequest (prompt : string) : JSON.value :=
  JSON.Object
    [ ("model", JSON.Str "gpt-4");
      ("messages",
       JSON.Array
         [ JSON.Object
             [ ("role", JSON.Str "system");
               ("content", JSON.Str "You are an expert FinOps consultant with deep knowledge of cloud cost optimization, unit economics, and industry-specific infrastructure patterns. You must respond with valid JSON only, no additional text or formatting.") ];
           JSON.Object
             [ ("role", JSON.Str "user");
               ("content", JSON.Str prompt) ] ]);
      ("temperature", JSON.Number 7 (-1));
      ("max_tokens", JSON.Number 2000 0) ].

(** [completion.choices[0]?.message?.content]. *)
Definition first_content (completion : Completion) : option string :=
  match choices completion with
  | [] => None
  | choice :: _ =>
      match message_of choice with
      | None => None
      | Some message => content message
      end
  end.

(** [response.replace(/```json\n?/g, '').replace(/```\n?/g, '').trim()]. *)
Definition cleanResponse (response : string) : string :=
  JS.trim
    (JS.remove_with_line_feed "```"
       (JS.remove_with_line_feed "```json" response)).

(** Property read [recommendations.key] on a parsed value: a [TypeError]
    on [null], [undefined] on everything that is not an object. *)
Definition property (recommendations : JSON.value) (key : string)
  : Result (option JSON.value) :=
  match recommendations with
  | JSON.Null =>
      Throw {| name := "TypeError";
               message := "Cannot read properties of null (reading '" +:+ key +:+ "')" |}
  | JSON.Object members => Return (JSON.member key members)
  | _ => Return None
  end.

Definition falsy (v : option JSON.value) : bool :=
  match v with
  | None => true
  | Some v => negb (JSON.truthy v)
  end.

(** [if (!recommendations.unitMetrics || !recommendations.conversationStarters)
      throw new Error('Invalid response structure from AI')]. *)
Definition validateStructure (recommendations : JSON.value) : Result unit :=
  match property recommendations "unitMetrics" with
  | Throw e => Throw e
  | Return unitMetrics =>
      if falsy unitMetrics then Throw SchemaValidationError
      else
        match property recommendations "conversationStarters" with
        | Throw e => Throw e
        | Return conversationStarters =>
            if falsy conversationStarters then Throw SchemaValidationError
            else Return tt
        end
  end.

Definition keyPreview (key : option string) : string :=
  match key with
  | Some key => if JS.truthy key then JS.take 10 key +:+ "..." else "Not set"
  | None => "Not set"
  end.

(** The method returns the parsed reply as it is: the cast to
    [AIRecommendation] checks nothing.  Every call of a collaborator is
    recorded before its answer is used. *)
Definition generateRecommendations (w : World) (context : CompanyContext)
  : M JSON.value :=
  try_catch
    (let hasValidOpenAI := isValidApiKey (VITE_OPENAI_API_KEY w) in
     let hasValidAWS := isValidApiKey (VITE_AWS_ACCESS_KEY_ID w)
                        && isValidApiKey (VITE_AWS_SECRET_ACCESS_KEY w) in
     emit (ConsoleLog
             [ LStr "API Key Status:";
               LObj [ ("openAI", if hasValidOpenAI then "Valid" else "Invalid/Missing");
                      ("aws", if hasValidAWS then "Valid" else "Invalid/Missing");
                      ("openAIKey", keyPreview (VITE_OPENAI_API_KEY w));
                      ("awsKeyId", keyPreview (VITE_AWS_ACCESS_KEY_ID w)) ] ]);;
     (if negb hasValidOpenAI then throw (CredentialError w) else ret tt);;
     (if negb hasValidAWS
      then emit (ConsoleWarn [LStr "AWS credentials invalid, proceeding with OpenAI only"])
      else ret tt);;
     emit (ConsoleLog [LStr "Gathering company intelligence..."]);;
     emit (GatherCall (companyName context) (websiteUrl context));;
     intelligence ← lift (gatherCompanyIntelligence w (companyName context) (websiteUrl context));
     industryAnalysis ←
       (if hasValidAWS
        then emit (ConsoleLog [LStr "Analyzing with Bedrock Claude..."]);;
             getIndustryAnalysis w intelligence
        else ret "");
     emit (ConsoleLog [LStr "Industry analysis:"; LStr industryAnalysis]);;
     emit (ConsoleLog [LStr "Generating recommendations with OpenAI..."]);;
     openai ← getOpenAI w;
     let prompt := buildEnhancedPrompt context intelligence industryAnalysis in
     emit (OpenAICall openai (chatRequest prompt));;
     completion ← lift (chat_completions_create w openai (chatRequest prompt));
     emit (ConsoleLog [LStr "OpenAI raw response:"; LMaybe (first_content completion)]);;
     match first_content completion with
     | None => throw ProviderResponseError
     | Some response =>
         if negb (JS.truthy response) then throw ProviderResponseError
         else
           recommendations ←
             try_catch
               (lift (JSON_parse w (cleanResponse response)))
               (fun parseError =>
                  emit (ConsoleError [ LStr "JSON parse error:"; LErr parseError;
                                       LStr "Raw response:"; LStr response ]);;
                  throw (ParseError parseError));
           lift (validateStructure recommendations);;
           ret recommendations
     end)
    (fun error =>
       emit (ConsoleError [LStr "Error generating AI recommendations:"; LErr error]);;
       throw error).

(** *** The typed recommendation as the object the validation reads *)

Definition metric_value (m : UnitMetric) : JSON.value :=
  JSON.Object [ ("title", JSON.Str (title m)); ("description", JSON.Str (description m)) ].

Definition insight_members (ci : gmap string (list string))
  : list (string * JSON.value) :=
  omap (fun key => (fun l => (key, JSON.Array (JSON.Str <$> l))) <$> ci !! key)
       ["ppa"; "genAI"; "cloudCostConcerns"].

Definition recommendation_value (r : AIRecommendation) : JSON.value :=
  JSON.Object
    [ ("unitMetrics", JSON.Array (metric_value <$> unitMetrics r));
      ("conversationStarters", JSON.Array (JSON.Str <$> conversationStarters r));
      ("conditionalInsights", JSON.Object (insight_members (conditionalInsights r))) ].

(** *** A concrete platform: [JSON.parse] by the parser above *)

(** The parser's error; the wording of its message differs between
    engines. *)
Definition SyntaxError : JsError :=
  {| name := "SyntaxError"; message := "Unexpected token in JSON" |}.

(** [JSON.parse] of a platform: the value of a text that parses, the
    parser's error otherwise (also on the texts the parser above leaves
    undecided; the samples below reach none). *)
Definition platform_JSON_parse (text : string) : Result JSON.value :=
  match JSON.parse_text text with
  | JSON.Parsed v _ => Return v
  | _ => Throw SyntaxError
  end.

End Service.

(** ** The identity validator as the design states it *)

Module IdentityValidator.

(** [t] occurs in [s] as a substring. *)
Definition contains (s t : string) : Prop :=
  exists pre post : string, s = pre +:+ t +:+ post.

(** [s] ends with [suffix]. *)
Definition ends_with (s suffix : string) : bool :=
  JS.has_prefix (String.rev suffix) (String.rev s).

Definition legal_suffixes : list string :=
  ["inc"; "corp"; "corporation"; "llc"; "ltd"; "limited"; "company"; "co"].

(** Strip a legal-entity suffix from the end, when there is one. *)
Definition strip_legal_suffix (s : string) : string :=
  match List.find (ends_with s) legal_suffixes with
  | Some suffix => JS.take (String.length s - String.length suffix) s
  | None => s
  end.

(** Lower-case, strip the non-alphanumeric characters (white space among
    them), strip a legal-entity suffix from the end. *)
Definition normalize_name (companyName : string) : string :=
  strip_legal_suffix (JS.keep JS.is_alnum (JS.toLowerCase companyName)).

(** Lower-case, strip a leading [http://] or [https://], strip a leading
    [www.], take the label before the first dot, strip the
    non-alphanumeric characters. *)
Definition first_label (websiteUrl : string) : string :=
  JS.before_first "."%char
    (JS.drop_prefix "www."
       (let url := JS.toLowerCase websiteUrl in
        if JS.has_prefix "https://" url then JS.drop_prefix "https://" url
        else JS.drop_prefix "http://" url)).

Definition normalize_url (websiteUrl : string) : string :=
  JS.keep JS.is_alnum (first_label websiteUrl).

(** The words of a text: its maximal runs of characters other than white
    space.  [cur] is the current word, reversed. *)
Fixpoint words_go (cur : string) (s : string) : list string :=
  match s with
  | EmptyString =>
      match cur with EmptyString => [] | _ => [String.rev cur] end
  | String c s' =>
      if JS.is_space c
      then match cur with
           | EmptyString => words_go EmptyString s'
           | _ => String.rev cur :: words_go EmptyString s'
           end
      else words_go (String c cur) s'
  end.

Definition words (companyName : string) : list string :=
  words_go EmptyString (JS.toLowerCase companyName).

(** The first characters of the words, in order. *)
Definition acronym (companyName : string) : string :=
  JS.join_empty (List.map JS.first_char (words companyName)).

(** (a) the normalized forms are equal. *)
Definition exact_match (companyName websiteUrl : string) : Prop :=
  normalize_name companyName = normalize_url websiteUrl.

(** (b) both normalized forms have at least three characters and one
    contains the other. *)
Definition partial_match (companyName websiteUrl : string) : Prop :=
  3 <= String.length (normalize_name companyName)
  /\ 3 <= String.length (normalize_url websiteUrl)
  /\ (contains (normalize_name companyName) (normalize_url websiteUrl)
      \/ contains (normalize_url websiteUrl) (normalize_name companyName)).

(** (c) a word of the name, stripped of non-alphanumerics and at least
    three characters long, occurs in the normalized URL label. *)
Definition word_match (companyName websiteUrl : string) : Prop :=
  exists word : string,
    In word (words companyName)
    /\ 3 <= String.length (JS.keep JS.is_alnum word)
    /\ contains (normalize_url websiteUrl) (JS.keep JS.is_alnum word).

(** (d) the name has more than one word and the acronym of the words'
    first characters, at least two long, occurs in the normalized URL
    label. *)
Definition acronym_match (companyName websiteUrl : string) : Prop :=
  1 < List.length (words companyName)
  /\ 2 <= String.length (acronym companyName)
  /\ contains (normalize_url websiteUrl) (acronym companyName).

Definition matches_spec (companyName websiteUrl : string) : Prop :=
  exact_match companyName websiteUrl
  \/ partial_match companyName websiteUrl
  \/ word_match companyName websiteUrl
  \/ acronym_match companyName websiteUrl.

(** An input is blank when it is empty or holds white space only. *)
Definition blank (s : string) : Prop := JS.every JS.is_space s = true.

(** A letter of either case or a digit. *)
Definition is_letter_or_digit (c : ascii) : bool :=
  let n := JS.code c in
  ((48 <=? n)%nat && (n <=? 57)%nat)
  || ((65 <=? n)%nat && (n <=? 90)%nat)
  || ((97 <=? n)%nat && (n <=? 122)%nat).

(** No character of [s] is a letter or a digit. *)
Definition no_alphanumeric (s : string) : Prop :=
  JS.every (fun c => negb (is_letter_or_digit c)) s = true.

End IdentityValidator.

(** ** Reading the schema the prompt ends with *)

Module Schema.

Import Service.

(** The text of the [conditionalInsights] object of the schema, from its
    opening to its closing brace. *)
Definition conditionalInsightsObject (ppa genAI cloudCostConcerns : bool) : string :=
  lines ("{" :: conditionalInsightsLines ppa genAI cloudCostConcerns ++ ["  }"]).

(** The whole schema of a context, from its opening to its closing brace. *)
Definition schemaText (context : CompanyContext) : string :=
  lines (schemaLines (companyName context) (ppa context) (genAI context)
           (cloudCostConcerns context)).

(** The last character of [body] that is not white space is a comma: the
    members end with a separator that nothing follows. *)
Definition trailing_separator (body : string) : bool :=
  match JSON.skip_ws (String.rev body) with
  | String c _ => Ascii.eqb c ","%char
  | EmptyString => false
  end.

(** The member names of an object text, when it parses. *)
Definition member_names (text : string) : option (list string) :=
  match JSON.parse_text text with
  | JSON.Parsed (JSON.Object members) _ => Some (List.map fst members)
  | _ => None
  end.

End Schema.

(** ** Sample requests and platforms *)

Module Samples.

Import Service.

Definition context (ppa genAI cloudCostConcerns : bool) : CompanyContext :=
  {| companyName := "Acme"; websiteUrl := "https://www.acme.com";
     email := "cfo@acme.com";
     ppa := ppa; genAI := genAI; cloudCostConcerns := cloudCostConcerns |}.

Definition intelligence : WebResearch.CompanyIntelligence :=
  {| WebResearch.companyName := "Acme";
     WebResearch.industry := "Logistics";
     WebResearch.businessModel := "B2B SaaS";
     WebResearch.techStack := ["AWS"; "Kubernetes"];
     WebResearch.recentNews := ["Series C"];
     WebResearch.cloudUsageIndicators := [];
     WebResearch.stockPerformance := None |}.

(** The same company with every field the fallback sentence does not read
    changed. *)
Definition intelligence' : WebResearch.CompanyIntelligence :=
  {| WebResearch.companyName := "Acme";
     WebResearch.industry := "Logistics";
     WebResearch.businessModel := "B2B SaaS";
     WebResearch.techStack := ["GCP"];
     WebResearch.recentNews := [];
     WebResearch.cloudUsageIndicators := ["GPU fleet"];
     WebResearch.stockPerformance := Some {| WebResearch.summary := "up 3%" |} |}.

(** 28 characters, no placeholder. *)
Definition plausibleKey : string := "sk-0123456789abcdefghijklmno".

(** Exactly 20 characters. *)
Definition twentyKey : string := "sk-0123456789abcdefg".

(** A reply in a code fence that is not JSON. *)
Definition fencedProse : string :=
  "```json" +:+ nl +:+ "Sorry, I cannot produce recommendations." +:+ nl +:+ "```".

Definition bedrockDown : JsError :=
  {| name := "TimeoutError"; message := "Bedrock did not answer" |}.

(** A platform with the given primary key and secondary key pair, a
    gatherer that answers [intelligence], a secondary provider that
    fails, a primary provider that answers [reply], and the parser of
    module [JSON]. *)
Definition world (primary secondary : option string) (reply : option string) : World :=
  {| VITE_OPENAI_API_KEY := primary;
     VITE_AWS_ACCESS_KEY_ID := secondary;
     VITE_AWS_SECRET_ACCESS_KEY := secondary;
     gatherCompanyIntelligence := fun _ _ => Return intelligence;
     invokeClaude := fun _ => Throw bedrockDown;
     chat_completions_create := fun _ _ =>
       Return {| choices := [ {| message_of := Some {| content := reply |} |} ] |};
     JSON_parse := platform_JSON_parse |}.

End Samples.

(** ** The order of the external calls of a request *)

Module Calls.

Import Service.

Inductive Kind : Type := Gatherer | Secondary | Primary.

Definition kind_of (e : Event) : option Kind :=
  match e with
  | GatherCall _ _ => Some Gatherer
  | BedrockCall _ => Some Secondary
  | OpenAICall _ _ => Some Primary
  | ConsoleLog _ | ConsoleWarn _ | ConsoleError _ => None
  end.

(** The collaborators a run reached, in the order it reached them. *)
Definition kinds (st : State) : list Kind := omap kind_of (events st).

(** The industry analysis text a request hands to the prompt builder: empty
    without a plausible secondary key pair, otherwise the secondary
    provider's answer or, when it fails, the fixed sentence. *)
Definition analysisText (w : World) (intelligence : WebResearch.CompanyIntelligence)
  : string :=
  if isValidApiKey (VITE_AWS_ACCESS_KEY_ID w)
     && isValidApiKey (VITE_AWS_SECRET_ACCESS_KEY w)
  then match invokeClaude w (industryPrompt intelligence) with
       | Return answer => answer
       | Throw _ => industryFallback intelligence
       end
  else "".

(** The client a request talks to: the static handle when there is one,
    a new client on the environment's key otherwise. *)
Definition clientOf (w : World) (handle : option OpenAI) : OpenAI :=
  match handle with
  | Some client => client
  | None => {| apiKey := VITE_OPENAI_API_KEY w; dangerouslyAllowBrowser := true |}
  end.

(** The result of a request once its gatherer and its primary provider
    have answered, read off the reply. *)
Definition replyOutcome (w : World) (completion : Completion) : Result JSON.value :=
  match first_content completion with
  | None => Throw ProviderResponseError
  | Some response =>
      if negb (JS.truthy response) then Throw ProviderResponseError
      else
        match JSON_parse w (cleanResponse response) with
        | Throw parseError => Throw (ParseError parseError)
        | Return v =>
            match validateStructure v with
            | Throw e => Throw e
            | Return _ => Return v
            end
        end
  end.

(** The error of reading [key] on [null]. *)
Definition TypeError_of_null (key : string) : JsError :=
  {| name := "TypeError";
     message := "Cannot read properties of null (reading '" +:+ key +:+ "')" |}.

End Calls.

(** ** Replies in code fences *)

Module Fence.

Import Service.

Definition backtick : ascii := "096"%char.

Definition fence : string := "```".

(** No backtick occurs in [s]. *)
Definition no_backtick (s : string) : Prop :=
  JS.every (fun c => negb (Ascii.eqb c backtick)) s = true.

(** A body between a [json] fence and a closing fence, each on its own
    line. *)
Definition jsonFenced (body : string) : string :=
  "```json" +:+ nl +:+ body +:+ nl +:+ "```".

(** A body between two bare fences. *)
Definition plainFenced (body : string) : string :=
  "```" +:+ nl +:+ body +:+ nl +:+ "```".

End Fence.

(** ** The [App] component (src/App.tsx): state, handlers, report view *)

Module AppComponent.

Import Service.

(** The six [useState] cells of the component.  [FormData] has the fields
    of [CompanyContext], and the form data is what [handleSubmit] passes to
    the service. *)
Record AppState : Type := {
  formData : CompanyContext;
  recommendations : option JSON.value;
  isGenerating : bool;
  validationWarning : option string;
  showErrorModal : bool;
  errorMessage : string
}.

(** A call of one of the state setters. *)
Inductive SetState : Type :=
| SetFormData (next : CompanyContext)
| SetRecommendations (next : option JSON.value)
| SetIsGenerating (next : bool)
| SetValidationWarning (next : option string)
| SetShowErrorModal (next : bool)
| SetErrorMessage (next : string).

Definition apply_update (st : AppState) (u : SetState) : AppState :=
  match u with
  | SetFormData next =>
      {| formData := next; recommendations := recommendations st;
         isGenerating := isGenerating st; validationWarning := validationWarning st;
         showErrorModal := showErrorModal st; errorMessage := errorMessage st |}
  | SetRecommendations next =>
      {| formData := formData st; recommendations := next;
         isGenerating := isGenerating st; validationWarning := validationWarning st;
         showErrorModal := showErrorModal st; errorMessage := errorMessage st |}
  | SetIsGenerating next =>
      {| formData := formData st; recommendations := recommendations st;
         isGenerating := next; validationWarning := validationWarning st;
         showErrorModal := showErrorModal st; errorMessage := errorMessage st |}
  | SetValidationWarning next =>
      {| formData := formData st; recommendations := recommendations st;
         isGenerating := isGenerating st; validationWarning := next;
         showErrorModal := showErrorModal st; errorMessage := errorMessage st |}
  | SetShowErrorModal next =>
      {| formData := formData st; recommendations := recommendations st;
         isGenerating := isGenerating st; validationWarning := validationWarning st;
         showErrorModal := next; errorMessage := errorMessage st |}
  | SetErrorMessage next =>
      {| formData := formData st; recommendations := recommendations st;
         isGenerating := isGenerating st; validationWarning := validationWarning st;
         showErrorModal := showErrorModal st; errorMessage := next |}
  end.

(** The state once the setter calls of a handler, in order, have taken
    effect. *)
Definition apply_updates (st : AppState) (us : list SetState) : AppState :=
  fold_left apply_update us st.

(** The object of [useState<FormData>(...)] and of [handleReset]. *)
Definition emptyForm : CompanyContext :=
  {| companyName := ""; websiteUrl := ""; email := "";
     ppa := false; genAI := false; cloudCostConcerns := false |}.

Definition initialState : AppState :=
  {| formData := emptyForm; recommendations := None; isGenerating := false;
     validationWarning := None; showErrorModal := false; errorMessage := "" |}.

Definition missingInputMessage : string :=
  "Please enter both a company name and website URL to continue.".

Definition mismatchWarning (data : CompanyContext) : string :=
  "The company name " +:+ q (companyName data)
  +:+ " doesn't seem to match the website URL " +:+ q (websiteUrl data)
  +:+ ". This might lead to inaccurate recommendations.".

(** The text [handleSubmit] puts in the modal for a caught error. *)
Definition modalMessage (errorMessage : string) : string :=
  if JS.includes errorMessage "API key"
  then "API configuration error: " +:+ errorMessage +:+ nl +:+ nl
       +:+ "Please check your .env.local file and ensure your OpenAI API key is valid."
  else "Error generating recommendations: " +:+ errorMessage.

(** [handleSubmit]: the setter calls it makes, in order, with what the
    service does to its own state in between.  Every value thrown in the
    model is an [Error] object, so [error instanceof Error] holds in the
    [catch] block. *)
Definition handleSubmit (w : World) (st : AppState) : M (list SetState) :=
  let formData := formData st in
  if negb (JS.truthy (JS.trim (companyName formData)))
     || negb (JS.truthy (JS.trim (websiteUrl formData)))
  then ret [ SetErrorMessage missingInputMessage; SetShowErrorModal true ]
  else if JS.truthy (JS.trim (websiteUrl formData))
          && negb (App.validateCompanyUrlMatch (companyName formData) (websiteUrl formData))
  then ret [ SetValidationWarning (Some (mismatchWarning formData)) ]
  else
    outcome ←
      try_catch
        (recs ← generateRecommendations w formData;
         ret [ SetRecommendations (Some recs) ])
        (fun error =>
           emit (ConsoleError [LStr "Error generating recommendations:"; LErr error]);;
           let errorMessage := message error in
           ret [ SetErrorMessage (modalMessage errorMessage); SetShowErrorModal true ]);
    ret ([ SetValidationWarning None; SetIsGenerating true ]
         ++ outcome ++ [ SetIsGenerating false ]).

(** [handleReset]. *)
Definition handleReset : list SetState :=
  [ SetFormData emptyForm; SetRecommendations None ].

(** The click handler of the "Proceed Anyway" button. *)
Definition proceedAnyway : list SetState := [ SetValidationWarning None ].

(** The click handler of the two buttons of the error modal. *)
Definition dismissModal : list SetState := [ SetShowErrorModal false ].

(** A submit from a state: the state after it and what the service did. *)
Definition submit (w : World) (handle : option OpenAI) (st : AppState)
  : AppState * State :=
  match run (handleSubmit w st) handle with
  | (Return updates, s) => (apply_updates st updates, s)
  | (Throw _, s) => (st, s)
  end.

(** The state after a submit that passes both guards. *)
Definition afterRequest (st : AppState) (r : Result JSON.value) : AppState :=
  match r with
  | Return recs =>
      {| formData := formData st; recommendations := Some recs;
         isGenerating := false; validationWarning := None;
         showErrorModal := showErrorModal st; errorMessage := errorMessage st |}
  | Throw e =>
      {| formData := formData st; recommendations := recommendations st;
         isGenerating := false; validationWarning := None;
         showErrorModal := true; errorMessage := modalMessage (message e) |}
  end.

(** *** The report branch of the render function *)

Definition TypeError (message : string) : JsError :=
  {| name := "TypeError"; message := message |}.

(** [target.key] where [target] may be [undefined]. *)
Definition read (target : option JSON.value) (key : string)
  : Result (option JSON.value) :=
  match target with
  | None => Throw (TypeError ("Cannot read properties of undefined (reading '"
                              +:+ key +:+ "')"))
  | Some v => property v key
  end.

(** The calls of [callback] that [items.map(callback)] makes, in order. *)
Fixpoint each (callback : JSON.value -> Result unit) (items : list JSON.value)
  : Result unit :=
  match items with
  | [] => Return tt
  | item :: rest =>
      match callback item with
      | Throw e => Throw e
      | Return _ => each callback rest
      end
  end.

(** [target.map(callback)]: only an array has a [map] to call. *)
Definition map_call (target : option JSON.value)
  (callback : JSON.value -> Result unit) : Result unit :=
  match target with
  | None => Throw (TypeError "Cannot read properties of undefined (reading 'map')")
  | Some JSON.Null => Throw (TypeError "Cannot read properties of null (reading 'map')")
  | Some (JSON.Array items) => each callback items
  | Some _ => Throw (TypeError "map is not a function")
  end.

(** The callback of the unit metrics list reads [metric.title] and
    [metric.description]. *)
Definition metricCallback (metric : JSON.value) : Result unit :=
  match property metric "title" with
  | Throw e => Throw e
  | Return _ =>
      match property metric "description" with
      | Throw e => Throw e
      | Return _ => Return tt
      end
  end.

(** The callbacks of the other lists read nothing of their item. *)
Definition itemCallback (item : JSON.value) : Result unit := Return tt.

(** [insights.key && insights.key.map(...)]. *)
Definition insightBlock (insights : option JSON.value) (key : string) : Result unit :=
  match read insights key with
  | Throw e => Throw e
  | Return list =>
      if falsy list then Return tt else map_call list itemCallback
  end.

(** The property reads and [map] calls the report branch makes, in the
    order of the JSX; building the elements themselves throws nothing. *)
Definition reportView (recommendations : JSON.value) : Result unit :=
  match property recommendations "unitMetrics" with
  | Throw e => Throw e
  | Return unitMetrics =>
  match map_call unitMetrics metricCallback with
  | Throw e => Throw e
  | Return _ =>
  match property recommendations "conversationStarters" with
  | Throw e => Throw e
  | Return conversationStarters =>
  match map_call conversationStarters itemCallback with
  | Throw e => Throw e
  | Return _ =>
  match property recommendations "conditionalInsights" with
  | Throw e => Throw e
  | Return insights =>
  match read insights "ppa" with
  | Throw e => Throw e
  | Return ppa =>
  match (if falsy ppa then read insights "genAI" else Return ppa) with
  | Throw e => Throw e
  | Return ppaOrGenAI =>
  match (if falsy ppaOrGenAI then read insights "cloudCostConcerns"
         else Return ppaOrGenAI) with
  | Throw e => Throw e
  | Return anyInsight =>
      if falsy anyInsight then Return tt
      else
        match insightBlock insights "ppa" with
        | Throw e => Throw e
        | Return _ =>
        match insightBlock insights "genAI" with
        | Throw e => Throw e
        | Return _ => insightBlock insights "cloudCostConcerns"
        end end
  end end end end end end end end.

Inductive Screen : Type := Spinner | Report | Form.

(** Which of its three screens the component returns, or what evaluating
    the report throws. *)
Definition render (st : AppState) : Result Screen :=
  if isGenerating st then Return Spinner
  else if negb (falsy (recommendations st))
  then match recommendations st with
       | Some r => match reportView r with
                   | Throw e => Throw e
                   | Return _ => Return Report
                   end
       | None => Return Form
       end
  else Return Form.

(** What the report needs of a reply: an object whose [unitMetrics] is an
    array without [null] items, whose [conversationStarters] is an array,
    and whose [conditionalInsights] is there, is not [null], and holds
    under each of its three keys nothing, a falsy value or an array. *)
Definition insightOk (insights : JSON.value) (key : string) : Prop :=
  match property insights key with
  | Throw _ => False
  | Return None => True
  | Return (Some v) => JSON.truthy v = false \/ exists items, v = JSON.Array items
  end.

Definition displayable (r : JSON.value) : Prop :=
  exists members metrics starters insights,
    r = JSON.Object members
    /\ JSON.member "unitMetrics" members = Some (JSON.Array metrics)
    /\ Forall (fun metric => metric <> JSON.Null) metrics
    /\ JSON.member "conversationStarters" members = Some (JSON.Array starters)
    /\ JSON.member "conditionalInsights" members = Some insights
    /\ insightOk insights "ppa"
    /\ insightOk insights "genAI"
    /\ insightOk insights "cloudCostConcerns".

End AppComponent.

(** ** Sample replies *)

Module Replies.

Import Service.

(** A reply with the two checked members and nothing else. *)
Definition bare : string :=
  "{ " +:+ q "unitMetrics" +:+ ": [], " +:+ q "conversationStarters" +:+ ": [] }".

Definition bareValue : JSON.value :=
  JSON.Object [ ("unitMetrics", JSON.Array []); ("conversationStarters", JSON.Array []) ].

(** A form whose name and URL match. *)
Definition filledForm : AppComponent.AppState :=
  {| AppComponent.formData := Samples.context false false false;
     AppComponent.recommendations := None;
     AppComponent.isGenerating := false;
     AppComponent.validationWarning := None;
     AppComponent.showErrorModal := false;
     AppComponent.errorMessage := "" |}.

End Replies.

Example ex_cloudzero :
  App.validateCompanyUrlMatch "CloudZero" "https://www.cloudzero.com" = true.
Proof. reflexivity. Qed.

Example ex_ibm :
  App.validateCompanyUrlMatch "International Business Machines" "https://ibm.com" = true.
Proof. reflexivity. Qed.

Example ex_acme :
  App.validateCompanyUrlMatch "Acme Corp" "https://www.globex.com" = false.
Proof. reflexivity. Qed.

Example ex_split :
  JS.split_ws " a  b " = [""; "a"; "b"; ""] /\ JS.split_ws "" = [""]
  /\ App.cleanCompanyName "Acme Corp." = "acme"
  /\ App.cleanUrl "HTTPS://WWW.Glo-bex.co.uk/x" = "globex".
Proof. repeat split; reflexivity. Qed.

(** * Facts about the string primitives *)

Section StringFacts.

Lemma append_nil_l (s : string) : "" +:+ s = s.
Proof. reflexivity. Qed.

Lemma append_cons (c : ascii) (s t : string) : String c s +:+ t = String c (s +:+ t).
Proof. reflexivity. Qed.

Lemma append_nil_r (s : string) : s +:+ "" = s.
Proof. induction s as [|c s IH]; [reflexivity|]. rewrite append_cons, IH. reflexivity. Qed.

Lemma append_assoc (s t u : string) : (s +:+ t) +:+ u = s +:+ t +:+ u.
Proof.
  induction s as [|c s IH]; [reflexivity|].
  rewrite !append_cons, IH. reflexivity.
Qed.

Lemma append_length (s t : string) :
  String.length (s +:+ t) = String.length s + String.length t.
Proof.
  induction s as [|c s IH]; [reflexivity|].
  rewrite append_cons. simpl. rewrite IH. reflexivity.
Qed.

Lemma rev_app_append (s t : string) : String.rev_app s t = String.rev s +:+ t.
Proof.
  revert t. induction s as [|c s IH]; intros t; [reflexivity|].
  unfold String.rev. simpl. rewrite (IH (String c t)), (IH (String c "")).
  rewrite append_assoc. reflexivity.
Qed.

Lemma rev_cons (c : ascii) (s : string) :
  String.rev (String c s) = String.rev s +:+ String c "".
Proof. unfold String.rev at 1. simpl. apply rev_app_append. Qed.

Lemma rev_append_distr (s t : string) :
  String.rev (s +:+ t) = String.rev t +:+ String.rev s.
Proof.
  induction s as [|c s IH].
  - rewrite append_nil_l, append_nil_r. reflexivity.
  - rewrite append_cons, !rev_cons, IH, append_assoc. reflexivity.
Qed.

Lemma rev_rev (s : string) : String.rev (String.rev s) = s.
Proof.
  induction s as [|c s IH]; [reflexivity|].
  rewrite rev_cons, rev_append_distr, IH. reflexivity.
Qed.

Lemma length_rev (s : string) : String.length (String.rev s) = String.length s.
Proof.
  induction s as [|c s IH]; [reflexivity|].
  rewrite rev_cons, append_length, IH. simpl. lia.
Qed.

Lemma length_zero (s : string) : String.length s = 0 -> s = "".
Proof. destruct s; [reflexivity | discriminate]. Qed.

Lemma rev_empty (s : string) : String.rev s = "" -> s = "".
Proof.
  intros H. apply length_zero. rewrite <- length_rev, H. reflexivity.
Qed.

Lemma has_prefix_spec (p s : string) :
  JS.has_prefix p s = true <-> exists r, s = p +:+ r.
Proof.
  revert s. induction p as [|a p IH]; intros s.
  - split; [intros _; exists s; reflexivity | reflexivity].
  - destruct s as [|b s]; simpl.
    + split; [discriminate | intros [r Hr]; discriminate].
    + destruct (Ascii.eqb_spec a b) as [->|Hne].
      * rewrite IH. split; intros [r Hr]; exists r.
        -- rewrite append_cons, Hr. reflexivity.
        -- rewrite append_cons in Hr. congruence.
      * split; [discriminate|]. intros [r Hr]. rewrite append_cons in Hr. congruence.
Qed.

Lemma includes_unfold (s t : string) :
  JS.includes s t =
  if JS.has_prefix t s then true
  else match s with
       | EmptyString => false
       | String _ s' => JS.includes s' t
       end.
Proof. destruct s; reflexivity. Qed.

Lemma includes_spec (s t : string) :
  JS.includes s t = true <-> IdentityValidator.contains s t.
Proof.
  unfold IdentityValidator.contains. split.
  - induction s as [|c s IH]; rewrite includes_unfold;
      destruct (JS.has_prefix t _) eqn:Hp.
    + apply has_prefix_spec in Hp as [r Hr]. intros _. exists "", r. exact Hr.
    + discriminate.
    + apply has_prefix_spec in Hp as [r Hr]. intros _. exists "", r. exact Hr.
    + intros H. destruct (IH H) as (pre & post & ->).
      exists (String c pre), post. reflexivity.
  - intros (pre & post & ->).
    induction pre as [|c pre IH]; rewrite includes_unfold.
    + assert (JS.has_prefix t ("" +:+ t +:+ post) = true) as ->; [|reflexivity].
      apply has_prefix_spec. exists post. reflexivity.
    + destruct (JS.has_prefix t _); [reflexivity|].
      rewrite append_cons. exact IH.
Qed.

Lemma every_app (p : ascii -> bool) (s t : string) :
  JS.every p (s +:+ t) = JS.every p s && JS.every p t.
Proof.
  induction s as [|c s IH]; [reflexivity|].
  rewrite append_cons. simpl. rewrite IH, andb_assoc. reflexivity.
Qed.

Lemma every_rev (p : ascii -> bool) (s : string) :
  JS.every p (String.rev s) = JS.every p s.
Proof.
  induction s as [|c s IH]; [reflexivity|].
  rewrite rev_cons, every_app, IH. simpl. rewrite andb_true_r, andb_comm.
  reflexivity.
Qed.

Lemma trimStart_empty (s : string) :
  JS.trimStart s = "" <-> JS.every JS.is_space s = true.
Proof.
  induction s as [|c s IH]; simpl; [tauto|].
  destruct (JS.is_space c); simpl; [exact IH|].
  split; discriminate.
Qed.

Lemma every_trimStart (s : string) :
  JS.every JS.is_space (JS.trimStart s) = JS.every JS.is_space s.
Proof.
  induction s as [|c s IH]; [reflexivity|]. simpl.
  destruct (JS.is_space c) eqn:Hc; simpl; [exact IH|].
  rewrite Hc. reflexivity.
Qed.

(** [trim] leaves nothing exactly on the blank inputs. *)
Lemma trim_empty (s : string) :
  JS.trim s = "" <-> IdentityValidator.blank s.
Proof.
  unfold JS.trim, JS.trimEnd, IdentityValidator.blank. split.
  - intros H. apply rev_empty in H. apply trimStart_empty in H.
    rewrite every_rev, every_trimStart in H. exact H.
  - intros H. apply trimStart_empty in H. rewrite H. reflexivity.
Qed.

Lemma truthy_false (s : string) : JS.truthy s = false <-> s = "".
Proof. destruct s; simpl; split; congruence. Qed.

Lemma keep_every_false (p : ascii -> bool) (s : string) :
  JS.every (fun c => negb (p c)) s = true -> JS.keep p s = "".
Proof.
  induction s as [|c s IH]; [reflexivity|]. simpl.
  destruct (p c); simpl; [discriminate | exact IH].
Qed.

Lemma every_impl (p r : ascii -> bool) (s : string) :
  (forall c, p c = true -> r c = true) ->
  JS.every p s = true -> JS.every r s = true.
Proof.
  intros Hpr. induction s as [|c s IH]; [reflexivity|]. simpl.
  intros [Hc Hs]%andb_true_iff. rewrite (Hpr c Hc), (IH Hs). reflexivity.
Qed.

Lemma every_map (p : ascii -> bool) (f : ascii -> ascii) (s : string) :
  JS.every p (JS.map f s) = JS.every (fun c => p (f c)) s.
Proof. induction s as [|c s IH]; [reflexivity|]. simpl. rewrite IH. reflexivity. Qed.

Lemma every_keep (p r : ascii -> bool) (s : string) :
  JS.every p s = true -> JS.every p (JS.keep r s) = true.
Proof.
  induction s as [|c s IH]; [reflexivity|]. simpl.
  intros [Hc Hs]%andb_true_iff.
  destruct (r c); simpl; [rewrite Hc|]; auto.
Qed.

(** Character classes, by enumeration of the 256 code units. *)
Lemma alnum_not_space (c : ascii) : JS.is_alnum c && JS.is_space c = false.
Proof. destruct c as [[] [] [] [] [] [] [] []]; reflexivity. Qed.

Lemma lower_alnum (c : ascii) :
  JS.is_alnum (JS.lower_char c) = IdentityValidator.is_letter_or_digit c.
Proof. destruct c as [[] [] [] [] [] [] [] []]; reflexivity. Qed.

Lemma keep_space_then_alnum (s : string) :
  JS.keep (fun c => negb (JS.is_space c)) (JS.keep JS.is_alnum_or_space s)
  = JS.keep JS.is_alnum s.
Proof.
  induction s as [|c s IH]; [reflexivity|].
  pose proof (alnum_not_space c) as Hc.
  cbn [JS.keep]. unfold JS.is_alnum_or_space at 1.
  destruct (JS.is_alnum c) eqn:Ha, (JS.is_space c) eqn:Hs;
    try discriminate; cbn [orb JS.keep]; rewrite ?Hs; cbn [negb]; rewrite IH;
    reflexivity.
Qed.

End StringFacts.

(** * The validator's normalization against the design's *)

Section Normalization.

Import IdentityValidator.

Lemma ends_with_spec (s suffix : string) :
  ends_with s suffix = true <-> exists p, s = p +:+ suffix.
Proof.
  unfold ends_with. rewrite has_prefix_spec. split.
  - intros [r Hr]. exists (String.rev r).
    rewrite <- (rev_rev s), Hr, rev_append_distr, rev_rev.
    reflexivity.
  - intros [p ->]. exists (String.rev p). apply rev_append_distr.
Qed.

Lemma is_suffix_word_spec (s : string) :
  App.is_suffix_word s = true <-> In s App.suffixes.
Proof.
  unfold App.is_suffix_word. rewrite existsb_exists. split.
  - intros (x & Hx & Heq). apply String.eqb_eq in Heq. subst. exact Hx.
  - intros H. exists s. split; [exact H | apply String.eqb_refl].
Qed.

(** No alternative of the suffix pattern ends with another one. *)
Lemma suffix_antichain (a b : string) :
  In a App.suffixes -> In b App.suffixes -> ends_with a b = true -> a = b.
Proof.
  unfold App.suffixes. simpl. intros Ha Hb.
  repeat (destruct Ha as [<-|Ha]; [|]); try contradiction;
    repeat (destruct Hb as [<-|Hb]; [|]); try contradiction;
    vm_compute; congruence.
Qed.

Lemma strip_suffix_unfold (s : string) :
  App.strip_suffix s =
  if App.is_suffix_word s then EmptyString
  else match s with
       | EmptyString => EmptyString
       | String c s' => String c (App.strip_suffix s')
       end.
Proof. destruct s; reflexivity. Qed.

Lemma strip_suffix_hit (p suffix : string) :
  In suffix App.suffixes -> App.strip_suffix (p +:+ suffix) = p.
Proof.
  intros Hin. induction p as [|c p IH]; rewrite strip_suffix_unfold.
  - rewrite append_nil_l. apply is_suffix_word_spec in Hin. rewrite Hin. reflexivity.
  - destruct (App.is_suffix_word _) eqn:Hw.
    + apply is_suffix_word_spec in Hw.
      assert (String c p +:+ suffix = suffix) as Heq.
      { apply suffix_antichain; [exact Hw | exact Hin |].
        apply ends_with_spec. exists (String c p). reflexivity. }
      apply (f_equal String.length) in Heq.
      rewrite append_length in Heq. simpl in Heq. lia.
    + rewrite append_cons, IH. reflexivity.
Qed.

Lemma strip_suffix_miss (s : string) :
  (forall suffix, In suffix App.suffixes -> ends_with s suffix = false) ->
  App.strip_suffix s = s.
Proof.
  induction s as [|c s IH]; intros Hno; rewrite strip_suffix_unfold.
  - destruct (App.is_suffix_word "") eqn:Hw; reflexivity.
  - destruct (App.is_suffix_word _) eqn:Hw.
    + apply is_suffix_word_spec in Hw. specialize (Hno _ Hw).
      assert (ends_with (String c s) (String c s) = true) as Ht.
      { apply ends_with_spec. exists "". reflexivity. }
      congruence.
    + f_equal. apply IH. intros suffix Hin.
      destruct (ends_with s suffix) eqn:He; [|reflexivity].
      apply ends_with_spec in He as [p ->].
      rewrite <- (Hno suffix Hin). symmetry.
      apply ends_with_spec. exists (String c p). reflexivity.
Qed.

Lemma take_append (p t : string) : JS.take (String.length p) (p +:+ t) = p.
Proof.
  induction p as [|c p IH]; [destruct t; reflexivity|].
  rewrite append_cons. simpl. rewrite IH. reflexivity.
Qed.

(** The regular expression removes exactly the legal-entity suffix. *)
Lemma strip_suffix_spec (s : string) :
  App.strip_suffix s = strip_legal_suffix s.
Proof.
  unfold strip_legal_suffix.
  destruct (List.find (ends_with s) legal_suffixes) as [suffix|] eqn:Hf.
  - apply find_some in Hf as [Hin He].
    apply ends_with_spec in He as [p ->].
    rewrite strip_suffix_hit by exact Hin.
    rewrite append_length, Nat.add_sub, take_append. reflexivity.
  - apply strip_suffix_miss. intros suffix Hin.
    exact (find_none _ _ Hf suffix Hin).
Qed.

Lemma cleanCompanyName_spec (companyName : string) :
  App.cleanCompanyName companyName = normalize_name companyName.
Proof.
  unfold App.cleanCompanyName, normalize_name.
  rewrite keep_space_then_alnum. apply strip_suffix_spec.
Qed.

Lemma cleanUrl_spec (websiteUrl : string) :
  App.cleanUrl websiteUrl = normalize_url websiteUrl.
Proof.
  unfold App.cleanUrl, normalize_url, first_label, App.strip_protocol, JS.drop_prefix.
  destruct (JS.has_prefix "https://" _); [reflexivity|].
  destruct (JS.has_prefix "http://" _); reflexivity.
Qed.

Lemma nonempty_rev (cur : string) :
  JS.nonempty (String.rev cur) = match cur with EmptyString => false | _ => true end.
Proof.
  unfold JS.nonempty. rewrite length_rev. destruct cur; reflexivity.
Qed.

(** The non-empty pieces of [split(/\s+/)] are the words. *)
Lemma split_ws_go_words (s : string) :
  (forall cur, List.filter JS.nonempty (JS.split_ws_go cur false s) = words_go cur s)
  /\ List.filter JS.nonempty (JS.split_ws_go EmptyString true s) = words_go EmptyString s.
Proof.
  induction s as [|c s [IH1 IH2]]; split; intros; simpl.
  - rewrite nonempty_rev. destruct cur; reflexivity.
  - reflexivity.
  - destruct (JS.is_space c).
    + simpl. rewrite nonempty_rev, IH2. destruct cur; reflexivity.
    + apply IH1.
  - destruct (JS.is_space c); [exact IH2 | apply IH1].
Qed.

Lemma split_ws_words (companyName : string) :
  List.filter JS.nonempty (JS.split_ws (JS.toLowerCase companyName)) = words companyName.
Proof. apply split_ws_go_words. Qed.

Lemma word_loop_spec (urlParts : string) (companyWords : list string) :
  App.word_loop urlParts companyWords = true <->
  exists word, In word companyWords
    /\ 3 <= String.length (JS.keep JS.is_alnum word)
    /\ contains urlParts (JS.keep JS.is_alnum word).
Proof.
  induction companyWords as [|w ws IH]; cbn [App.word_loop In].
  - split; [discriminate | intros (? & [] & _)].
  - destruct (_ && _) eqn:Hc.
    + split; [intros _|reflexivity].
      apply andb_true_iff in Hc as [Hlen Hinc].
      exists w. rewrite <- includes_spec.
      apply Nat.leb_le in Hlen. auto.
    + rewrite IH. split.
      * intros (x & Hx & Hp). exists x. auto.
      * intros (x & [<-|Hx] & Hlen & Hinc).
        -- apply includes_spec in Hinc. apply Nat.leb_le in Hlen.
           rewrite Hlen, Hinc in Hc. discriminate.
        -- exists x. auto.
Qed.

Lemma keep_length_le (p : ascii -> bool) (s : string) :
  String.length (JS.keep p s) <= String.length s.
Proof.
  induction s as [|c s IH]; [reflexivity|]. simpl.
  destruct (p c); simpl; lia.
Qed.

Lemma acronym_length (l : list string) :
  Forall (fun w => JS.nonempty w = true) l ->
  String.length (JS.join_empty (List.map JS.first_char l)) = List.length l.
Proof.
  induction 1 as [|w l Hw _ IH]; [reflexivity|].
  simpl. rewrite append_length, IH.
  destruct w; [discriminate | reflexivity].
Qed.

Lemma filter_length_le {A} (p : A -> bool) (l : list A) :
  List.length (List.filter p l) <= List.length l.
Proof. induction l as [|x l IH]; simpl; [lia|]. destruct (p x); simpl; lia. Qed.

End Normalization.

(** * The identity validator *)

Section Validator.

Import IdentityValidator.

Lemma guard_passes (s : string) : ~ blank s -> negb (JS.truthy (JS.trim s)) = false.
Proof.
  intros Hs. destruct (JS.truthy (JS.trim s)) eqn:Ht; [reflexivity|].
  apply truthy_false, trim_empty in Ht. contradiction.
Qed.

Lemma guard_skips (s : string) : blank s -> negb (JS.truthy (JS.trim s)) = true.
Proof.
  intros Hs. apply trim_empty in Hs. rewrite Hs. reflexivity.
Qed.

(** Past the guard, the function is the disjunction of its four tests. *)
Lemma validate_decision (companyName websiteUrl : string) :
  ~ blank companyName -> ~ blank websiteUrl ->
  App.validateCompanyUrlMatch companyName websiteUrl =
  let n := normalize_name companyName in
  let u := normalize_url websiteUrl in
  let companyWords := JS.split_ws (JS.toLowerCase companyName) in
  String.eqb n u
  || ((3 <=? String.length n)%nat && (3 <=? String.length u)%nat
      && (JS.includes n u || JS.includes u n))
  || App.word_loop u companyWords
  || ((1 <? List.length companyWords)%nat
      && ((2 <=? String.length (App.acronym_of companyWords))%nat
          && JS.includes u (App.acronym_of companyWords))).
Proof.
  intros Hn Hu. unfold App.validateCompanyUrlMatch.
  rewrite (guard_passes _ Hn), (guard_passes _ Hu).
  rewrite cleanCompanyName_spec, cleanUrl_spec. cbv zeta. cbn [orb].
  destruct (String.eqb _ _); [reflexivity|].
  destruct (_ && _ && _); [reflexivity|].
  destruct (App.word_loop _ _); [reflexivity|].
  destruct (_ && _); reflexivity.
Qed.

Lemma words_nonempty (companyName : string) :
  Forall (fun w => JS.nonempty w = true) (words companyName).
Proof.
  rewrite <- split_ws_words. apply List.Forall_forall.
  intros w Hw. apply List.filter_In in Hw. tauto.
Qed.

Lemma acronym_of_spec (companyName : string) :
  App.acronym_of (JS.split_ws (JS.toLowerCase companyName)) = acronym companyName.
Proof. unfold App.acronym_of, acronym. rewrite split_ws_words. reflexivity. Qed.

Lemma word_test_spec (companyName u : string) :
  App.word_loop u (JS.split_ws (JS.toLowerCase companyName)) = true <->
  exists word, In word (words companyName)
    /\ 3 <= String.length (JS.keep JS.is_alnum word)
    /\ contains u (JS.keep JS.is_alnum word).
Proof.
  rewrite word_loop_spec, <- split_ws_words.
  split; intros (w & Hin & Hlen & Hc); exists w; repeat split; try assumption.
  - apply List.filter_In. split; [exact Hin|].
    apply Nat.ltb_lt. pose proof (keep_length_le JS.is_alnum w). lia.
  - apply List.filter_In in Hin. tauto.
Qed.

Lemma acronym_test_spec (companyName u : string) :
  let companyWords := JS.split_ws (JS.toLowerCase companyName) in
  (1 <? List.length companyWords)%nat
  && ((2 <=? String.length (App.acronym_of companyWords))%nat
      && JS.includes u (App.acronym_of companyWords)) = true <->
  1 < List.length (words companyName)
  /\ 2 <= String.length (acronym companyName)
  /\ contains u (acronym companyName).
Proof.
  cbv zeta. rewrite acronym_of_spec, !andb_true_iff, Nat.ltb_lt, Nat.leb_le,
    includes_spec.
  pose proof (acronym_length _ (words_nonempty companyName)) as Hlen.
  fold (acronym companyName) in Hlen.
  pose proof (filter_length_le JS.nonempty (JS.split_ws (JS.toLowerCase companyName))) as Hle.
  rewrite split_ws_words in Hle.
  split; intros (H1 & H2 & H3); repeat split; try assumption; lia.
Qed.

Lemma validate_spec (companyName websiteUrl : string) :
  ~ blank companyName -> ~ blank websiteUrl ->
  App.validateCompanyUrlMatch companyName websiteUrl = true
  <-> matches_spec companyName websiteUrl.
Proof.
  intros Hn Hu. rewrite (validate_decision _ _ Hn Hu). cbv zeta.
  unfold matches_spec, exact_match, partial_match, word_match, acronym_match.
  rewrite !orb_true_iff, String.eqb_eq, word_test_spec, acronym_test_spec.
  rewrite !andb_true_iff, orb_true_iff, !Nat.leb_le, !includes_spec.
  tauto.
Qed.

End Validator.

Section ValidatorClaims.

Import IdentityValidator.

(** Discharge [~ blank s] on a literal [s]. *)
Ltac not_blank :=
  let H := fresh "H" in intro H; vm_compute in H; discriminate H.

Lemma every_drop (p : ascii -> bool) (n : nat) (s : string) :
  JS.every p s = true -> JS.every p (JS.drop n s) = true.
Proof.
  revert s. induction n as [|n IH]; intros s; [trivial|].
  destruct s as [|c s]; [trivial|]. simpl.
  intros [_ Hs]%andb_true_iff. apply IH, Hs.
Qed.

Lemma every_before_first (p : ascii -> bool) (sep : ascii) (s : string) :
  JS.every p s = true -> JS.every p (JS.before_first sep s) = true.
Proof.
  induction s as [|c s IH]; [trivial|]. simpl.
  intros [Hc Hs]%andb_true_iff.
  destruct (Ascii.eqb c sep); [reflexivity|].
  simpl. rewrite Hc. apply IH, Hs.
Qed.

Lemma lower_letter_or_digit (c : ascii) :
  is_letter_or_digit (JS.lower_char c) = is_letter_or_digit c.
Proof. destruct c as [[] [] [] [] [] [] [] []]; reflexivity. Qed.

Lemma alnum_letter_or_digit (c : ascii) :
  negb (is_letter_or_digit c) = true -> negb (JS.is_alnum c) = true.
Proof. destruct c as [[] [] [] [] [] [] [] []]; vm_compute; trivial. Qed.

(** A URL without letters and digits has a first label without them. *)
Lemma no_alphanumeric_first_label (websiteUrl : string) :
  no_alphanumeric websiteUrl -> no_alphanumeric (first_label websiteUrl).
Proof.
  unfold no_alphanumeric, first_label, JS.drop_prefix, JS.toLowerCase.
  intros H.
  assert (JS.every (fun c => negb (is_letter_or_digit c))
            (JS.map JS.lower_char websiteUrl) = true) as Hl.
  { rewrite every_map. erewrite every_impl; [reflexivity| |exact H].
    intros c Hc. simpl. rewrite lower_letter_or_digit. exact Hc. }
  apply every_before_first.
  repeat match goal with
         | |- context [if ?b then _ else _] => destruct b
         end; repeat apply every_drop; exact Hl.
Qed.

Lemma normalize_name_no_alphanumeric (companyName : string) :
  no_alphanumeric companyName -> normalize_name companyName = "".
Proof.
  unfold no_alphanumeric, normalize_name, JS.toLowerCase. intros H.
  rewrite keep_every_false; [reflexivity|].
  rewrite every_map. erewrite every_impl; [reflexivity| |exact H].
  intros c Hc. simpl. rewrite lower_alnum. exact Hc.
Qed.

Lemma normalize_url_no_alphanumeric (websiteUrl : string) :
  no_alphanumeric (first_label websiteUrl) -> normalize_url websiteUrl = "".
Proof.
  unfold no_alphanumeric, normalize_url. intros H.
  apply keep_every_false.
  erewrite every_impl; [reflexivity| |exact H].
  apply alnum_letter_or_digit.
Qed.

(** C3: for inputs that are not blank, [validateCompanyUrlMatch] returns
    [true] exactly when, on the normalized name and URL label, (a) they
    are equal, or (b) both have at least three characters and one contains
    the other, or (c) a word of the name (alphanumerics only, at least
    three of them) occurs in the label, or (d) the name has several words
    and their acronym (at least two characters) occurs in the label; it
    returns [false] otherwise.  "CloudZero" matches
    "https://www.cloudzero.com", "International Business Machines"
    matches "https://ibm.com", "Acme Corp" does not match
    "https://www.globex.com". *)
Theorem C3_matches_iff_four_conditions :
  (forall companyName websiteUrl : string,
      ~ blank companyName -> ~ blank websiteUrl ->
      (App.validateCompanyUrlMatch companyName websiteUrl = true
       <-> matches_spec companyName websiteUrl)
      /\ (~ matches_spec companyName websiteUrl ->
          App.validateCompanyUrlMatch companyName websiteUrl = false))
  /\ App.validateCompanyUrlMatch "CloudZero" "https://www.cloudzero.com" = true
  /\ App.validateCompanyUrlMatch "International Business Machines" "https://ibm.com" = true
  /\ App.validateCompanyUrlMatch "Acme Corp" "https://www.globex.com" = false.
Proof.
  split; [|repeat split; reflexivity].
  intros companyName websiteUrl Hn Hu.
  pose proof (validate_spec companyName websiteUrl Hn Hu) as Hspec.
  split; [exact Hspec|].
  intros Hno. destruct (App.validateCompanyUrlMatch companyName websiteUrl);
    [|reflexivity].
  exfalso. apply Hno, Hspec. reflexivity.
Qed.

(** The acronym condition is the one that holds for IBM. *)
Lemma C3_witness :
  matches_spec "International Business Machines" "https://ibm.com"
  /\ ~ matches_spec "Acme Corp" "https://www.globex.com".
Proof.
  split.
  - apply (proj1 (proj1 C3_matches_iff_four_conditions
                    "International Business Machines" "https://ibm.com"
                    ltac:(not_blank) ltac:(not_blank))).
    reflexivity.
  - intros Hm.
    apply (proj1 (proj1 C3_matches_iff_four_conditions
                    "Acme Corp" "https://www.globex.com"
                    ltac:(not_blank) ltac:(not_blank))) in Hm.
    vm_compute in Hm. discriminate Hm.
Defined.

(** C7: when the company name or the website URL is empty or holds white
    space only, [validateCompanyUrlMatch] returns [true]: the validation
    is skipped. *)
Theorem C7_blank_input_skips_validation (companyName websiteUrl : string) :
  blank companyName \/ blank websiteUrl ->
  App.validateCompanyUrlMatch companyName websiteUrl = true.
Proof.
  unfold App.validateCompanyUrlMatch. intros [H|H].
  - rewrite (guard_skips _ H). reflexivity.
  - rewrite (guard_skips _ H), orb_true_r. reflexivity.
Qed.

Lemma C7_witness :
  App.validateCompanyUrlMatch "Anything" "" = true
  /\ App.validateCompanyUrlMatch "   " "https://www.globex.com" = true.
Proof.
  split.
  - apply (C7_blank_input_skips_validation "Anything" "").
    right. reflexivity.
  - apply (C7_blank_input_skips_validation "   " "https://www.globex.com").
    left. reflexivity.
Defined.

(** C9: when neither input is blank, the company name holds no letter and
    no digit, and the URL (or just its first label) holds none either,
    both cleaned forms are the empty string and
    [validateCompanyUrlMatch] returns [true] through the equality test,
    however unrelated the inputs are. *)
Theorem C9_punctuation_only_inputs_match (companyName websiteUrl : string) :
  ~ blank companyName -> ~ blank websiteUrl ->
  no_alphanumeric companyName ->
  no_alphanumeric websiteUrl \/ no_alphanumeric (first_label websiteUrl) ->
  App.cleanCompanyName companyName = ""
  /\ App.cleanUrl websiteUrl = ""
  /\ String.eqb (App.cleanCompanyName companyName) (App.cleanUrl websiteUrl) = true
  /\ App.validateCompanyUrlMatch companyName websiteUrl = true.
Proof.
  intros Hn Hu Hname Hurl.
  assert (App.cleanCompanyName companyName = "") as En.
  { rewrite cleanCompanyName_spec. apply normalize_name_no_alphanumeric, Hname. }
  assert (App.cleanUrl websiteUrl = "") as Eu.
  { rewrite cleanUrl_spec. apply normalize_url_no_alphanumeric.
    destruct Hurl as [H|H]; [apply no_alphanumeric_first_label, H | exact H]. }
  repeat split; try assumption.
  - rewrite En, Eu. reflexivity.
  - unfold App.validateCompanyUrlMatch.
    rewrite (guard_passes _ Hn), (guard_passes _ Hu), En, Eu. reflexivity.
Qed.

Lemma C9_witness :
  App.validateCompanyUrlMatch "!!!" "???" = true
  /\ App.validateCompanyUrlMatch "@#$ &*" "https://---.example.org" = true.
Proof.
  split.
  - apply (C9_punctuation_only_inputs_match "!!!" "???");
      [not_blank | not_blank | reflexivity |].
    left. reflexivity.
  - apply (C9_punctuation_only_inputs_match "@#$ &*" "https://---.example.org");
      [not_blank | not_blank | reflexivity |].
    right. reflexivity.
Defined.

End ValidatorClaims.

(** * The recommendation service *)

Section Credentials.

Import Service.
Import IdentityValidator (contains).

(** Unfold the monad down to state passing. *)
Ltac run_monad :=
  unfold run, generateRecommendations, getIndustryAnalysis, getOpenAI,
    try_catch, mbind, M_bind, bind, emit, throw, ret, lift;
  cbn [openai events fst snd].

Lemma isValidApiKey_spec (key : option string) :
  isValidApiKey key = true <->
  exists k, key = Some k /\ JS.trim k <> "" /\ ~ contains k "your_"
            /\ 20 < String.length k.
Proof.
  destruct key as [k|]; simpl.
  - rewrite !andb_true_iff, !negb_true_iff, Nat.ltb_lt.
    rewrite <- (not_true_iff_false (JS.includes _ _)), includes_spec.
    rewrite <- (not_true_iff_false (String.eqb _ _)), String.eqb_eq.
    split.
    + intros (((_ & Ht) & Hi) & Hl). exists k. auto.
    + intros (k' & [= <-] & Ht & Hi & Hl). repeat split; try assumption.
      destruct k; [simpl in Hl; lia | reflexivity].
  - split; [discriminate | intros (k & [=] & _)].
Qed.

Lemma isValidApiKey_length_20 (k : string) :
  String.length k = 20 -> isValidApiKey (Some k) = false.
Proof.
  intros Hl. simpl. rewrite Hl. simpl. apply andb_false_r.
Qed.

(** An implausible primary key ends the request at the check. *)
Lemma invalid_primary_run (w : World) (context : CompanyContext)
      (handle : option OpenAI) :
  isValidApiKey (VITE_OPENAI_API_KEY w) = false ->
  run (generateRecommendations w context) handle =
  (Throw (CredentialError w),
   {| openai := handle;
      events :=
        [ ConsoleLog
            [ LStr "API Key Status:";
              LObj [ ("openAI", "Invalid/Missing");
                     ("aws", if isValidApiKey (VITE_AWS_ACCESS_KEY_ID w)
                                && isValidApiKey (VITE_AWS_SECRET_ACCESS_KEY w)
                             then "Valid" else "Invalid/Missing");
                     ("openAIKey", keyPreview (VITE_OPENAI_API_KEY w));
                     ("awsKeyId", keyPreview (VITE_AWS_ACCESS_KEY_ID w)) ] ];
          ConsoleError [ LStr "Error generating AI recommendations:";
                         LErr (CredentialError w) ] ] |}).
Proof.
  intros H. run_monad. rewrite H. reflexivity.
Qed.

(** C4: when the primary provider credential is absent or implausible,
    [generateRecommendations] throws the credential error whatever the
    context, the static handle and the collaborators are.  The run
    consists of the key status log and the error log, and reaches no
    collaborator: not the gatherer, not the secondary provider, not the
    primary provider, for which no prompt is built; the handle is left as
    it was. *)
Theorem C4_invalid_primary_credential_is_fatal
        (w : World) (context : CompanyContext) (handle : option OpenAI) :
  isValidApiKey (VITE_OPENAI_API_KEY w) = false ->
  exists st status,
    run (generateRecommendations w context) handle = (Throw (CredentialError w), st)
    /\ events st =
       [ ConsoleLog [LStr "API Key Status:"; LObj status];
         ConsoleError [LStr "Error generating AI recommendations:";
                       LErr (CredentialError w)] ]
    /\ existsb is_external_call (events st) = false
    /\ openai st = handle.
Proof.
  intros H. rewrite (invalid_primary_run w context handle H).
  eexists. eexists. split; [reflexivity|]. split; [reflexivity|].
  split; reflexivity.
Qed.

Lemma C4_witness :
  exists st status,
    run (generateRecommendations
           (Samples.world None (Some Samples.plausibleKey) (Some "{}"))
           (Samples.context true true true)) None
    = (Throw (new_Error "OpenAI API key is invalid or missing. Please check your .env.local file. Current key: Not set"), st)
    /\ events st =
       [ ConsoleLog [LStr "API Key Status:"; LObj status];
         ConsoleError
           [LStr "Error generating AI recommendations:";
            LErr (CredentialError
                    (Samples.world None (Some Samples.plausibleKey) (Some "{}")))] ]
    /\ existsb is_external_call (events st) = false
    /\ openai st = None.
Proof.
  apply (C4_invalid_primary_credential_is_fatal
           (Samples.world None (Some Samples.plausibleKey) (Some "{}"))
           (Samples.context true true true) None).
  reflexivity.
Defined.

End Credentials.

Section Pipeline.

Import Service.
Import IdentityValidator (contains).

Ltac run_monad :=
  unfold run, generateRecommendations, getIndustryAnalysis, getOpenAI,
    try_catch, mbind, M_bind, bind, emit, throw, ret, lift;
  cbn [openai events fst snd].

(** Reduce the request without unfolding the texts it builds. *)
Ltac step :=
  cbn -[buildEnhancedPrompt chatRequest cleanResponse validateStructure
        first_content keyPreview isValidApiKey industryPrompt industryFallback
        CredentialError ParseError].

(** Case analysis on every answer of a collaborator the request inspects. *)
Ltac explore :=
  repeat (step;
          match goal with
          | |- context [match ?x with _ => _ end] =>
              lazymatch x with
              | context [match _ with _ => _ end] => fail
              | _ => destruct x eqn:?
              end
          end);
  step.

Lemma valid_primary_reaches_gatherer (w : World) (context : CompanyContext)
      (handle : option OpenAI) :
  isValidApiKey (VITE_OPENAI_API_KEY w) = true ->
  existsb is_gather_call
    (events (snd (run (generateRecommendations w context) handle))) = true.
Proof.
  intros H. run_monad. rewrite H. explore; reflexivity.
Qed.

Lemma invalid_secondary_skips_analysis (w : World) (context : CompanyContext)
      (handle : option OpenAI) :
  isValidApiKey (VITE_OPENAI_API_KEY w) = true ->
  isValidApiKey (VITE_AWS_ACCESS_KEY_ID w)
  && isValidApiKey (VITE_AWS_SECRET_ACCESS_KEY w) = false ->
  let st := snd (run (generateRecommendations w context) handle) in
  existsb is_bedrock_call (events st) = false
  /\ existsb is_gather_call (events st) = true
  /\ In (ConsoleWarn [LStr "AWS credentials invalid, proceeding with OpenAI only"])
        (events st).
Proof.
  intros H1 H2. run_monad. rewrite H1, H2.
  explore; repeat split; try reflexivity; simpl; auto.
Qed.

Lemma valid_secondary_runs_analysis (w : World) (context : CompanyContext)
      (handle : option OpenAI) (intelligence : WebResearch.CompanyIntelligence) :
  isValidApiKey (VITE_OPENAI_API_KEY w) = true ->
  isValidApiKey (VITE_AWS_ACCESS_KEY_ID w)
  && isValidApiKey (VITE_AWS_SECRET_ACCESS_KEY w) = true ->
  gatherCompanyIntelligence w (companyName context) (websiteUrl context)
  = Return intelligence ->
  In (BedrockCall (industryPrompt intelligence))
     (events (snd (run (generateRecommendations w context) handle))).
Proof.
  intros H1 H2 H3. run_monad. rewrite H1, H2, H3.
  explore; simpl; auto 10.
Qed.

(** C10: a credential is plausible exactly when it is defined, is not
    blank after trimming, holds no [your_] anywhere and is longer than 20
    characters, so that one of exactly 20 characters is rejected.  The
    same predicate decides the fatal check of the primary provider's key
    (rejected: the credential error; accepted: the request goes on to the
    gatherer) and the check of the secondary provider's key pair, which
    is not fatal (rejected: a warning, no industry analysis, the request
    goes on; accepted: the analysis is requested). *)
Theorem C10_credential_plausibility :
  (forall key : option string,
      isValidApiKey key = true <->
      exists k, key = Some k /\ JS.trim k <> "" /\ ~ contains k "your_"
                /\ 20 < String.length k)
  /\ (forall k : string, String.length k = 20 -> isValidApiKey (Some k) = false)
  /\ (forall w context handle,
         isValidApiKey (VITE_OPENAI_API_KEY w) = false ->
         fst (run (generateRecommendations w context) handle)
         = Throw (CredentialError w))
  /\ (forall w context handle,
         isValidApiKey (VITE_OPENAI_API_KEY w) = true ->
         existsb is_gather_call
           (events (snd (run (generateRecommendations w context) handle))) = true)
  /\ (forall w context handle,
         isValidApiKey (VITE_OPENAI_API_KEY w) = true ->
         isValidApiKey (VITE_AWS_ACCESS_KEY_ID w)
         && isValidApiKey (VITE_AWS_SECRET_ACCESS_KEY w) = false ->
         let st := snd (run (generateRecommendations w context) handle) in
         existsb is_bedrock_call (events st) = false
         /\ existsb is_gather_call (events st) = true
         /\ In (ConsoleWarn [LStr "AWS credentials invalid, proceeding with OpenAI only"])
               (events st))
  /\ (forall w context handle intelligence,
         isValidApiKey (VITE_OPENAI_API_KEY w) = true ->
         isValidApiKey (VITE_AWS_ACCESS_KEY_ID w)
         && isValidApiKey (VITE_AWS_SECRET_ACCESS_KEY w) = true ->
         gatherCompanyIntelligence w (companyName context) (websiteUrl context)
         = Return intelligence ->
         In (BedrockCall (industryPrompt intelligence))
            (events (snd (run (generateRecommendations w context) handle)))).
Proof.
  split; [exact isValidApiKey_spec|].
  split; [exact isValidApiKey_length_20|].
  split.
  { intros w context handle H.
    rewrite (invalid_primary_run w context handle H). reflexivity. }
  split; [exact valid_primary_reaches_gatherer|].
  split; [exact invalid_secondary_skips_analysis|].
  exact valid_secondary_runs_analysis.
Qed.

Lemma C10_witness :
  isValidApiKey (Some Samples.twentyKey) = false
  /\ isValidApiKey (Some Samples.plausibleKey) = true
  /\ fst (run (generateRecommendations
                 (Samples.world (Some Samples.twentyKey) None None)
                 (Samples.context false false false)) None)
     = Throw (CredentialError (Samples.world (Some Samples.twentyKey) None None)).
Proof.
  destruct C10_credential_plausibility as (Hiff & H20 & Hfatal & _).
  split; [apply (H20 Samples.twentyKey); reflexivity|].
  split.
  - apply (Hiff (Some Samples.plausibleKey)).
    exists Samples.plausibleKey.
    split; [reflexivity|]. split; [vm_compute; discriminate|].
    split; [|vm_compute; lia].
    intros Hc. apply includes_spec in Hc. vm_compute in Hc. discriminate Hc.
  - apply (Hfatal (Samples.world (Some Samples.twentyKey) None None)).
    reflexivity.
Defined.

(** C8: [getIndustryAnalysis] returns a text from every state and for
    every behaviour of the secondary provider, and never throws.  When the
    provider fails, the text is the fixed sentence, which reads only the
    company name, the industry and the business model of the intelligence
    record; when the provider answers, the text is its answer. *)
Theorem C8_industry_analysis_never_throws
        (w : World) (intelligence : WebResearch.CompanyIntelligence) (st : State) :
  (exists text st',
      getIndustryAnalysis w intelligence st = (Return text, st')
      /\ (forall e, invokeClaude w (industryPrompt intelligence) = Throw e ->
                    text = industryFallback intelligence
                    /\ In (ConsoleWarn [LStr "Bedrock analysis failed, using fallback:";
                                        LErr e]) (events st'))
      /\ (forall answer,
             invokeClaude w (industryPrompt intelligence) = Return answer ->
             text = answer))
  /\ (forall other : WebResearch.CompanyIntelligence,
         WebResearch.companyName other = WebResearch.companyName intelligence ->
         WebResearch.industry other = WebResearch.industry intelligence ->
         WebResearch.businessModel other = WebResearch.businessModel intelligence ->
         industryFallback other = industryFallback intelligence).
Proof.
  split.
  - run_monad.
    destruct (invokeClaude w (industryPrompt intelligence)) as [answer|e] eqn:Hc.
    + exists answer. eexists. split; [reflexivity|].
      split; [discriminate | congruence].
    + exists (industryFallback intelligence). eexists. split; [reflexivity|].
      split; [|discriminate].
      intros e' [= <-]. split; [reflexivity|].
      cbn [events]. apply in_or_app. right. left. reflexivity.
  - intros other Hn Hi Hb. unfold industryFallback. rewrite Hn, Hi, Hb.
    reflexivity.
Qed.

Lemma C8_witness :
  (exists st',
      getIndustryAnalysis (Samples.world None None None) Samples.intelligence
        {| openai := None; events := [] |}
      = (Return "Based on Acme's Logistics industry focus and B2B SaaS business model, they likely have significant cloud infrastructure needs with potential for cost optimization through unit economics and usage-based monitoring.", st'))
  /\ industryFallback Samples.intelligence' = industryFallback Samples.intelligence.
Proof.
  destruct (C8_industry_analysis_never_throws
              (Samples.world None None None) Samples.intelligence
              {| openai := None; events := [] |})
    as [(text & st' & Hrun & Hfail & _) Honly].
  split.
  - exists st'. rewrite Hrun.
    destruct (Hfail Samples.bedrockDown eq_refl) as [-> _]. reflexivity.
  - apply (Honly Samples.intelligence'); reflexivity.
Defined.

(** The parse-failure path of a request whose earlier steps succeed. *)
Lemma parse_failure_run (w : World) (context : CompanyContext)
      (handle : option OpenAI) (intelligence : WebResearch.CompanyIntelligence)
      (completion : Completion) (response : string) (parseError : JsError) :
  isValidApiKey (VITE_OPENAI_API_KEY w) = true ->
  gatherCompanyIntelligence w (companyName context) (websiteUrl context)
  = Return intelligence ->
  (forall client request, chat_completions_create w client request = Return completion) ->
  first_content completion = Some response ->
  JS.truthy response = true ->
  JSON_parse w (cleanResponse response) = Throw parseError ->
  exists st,
    run (generateRecommendations w context) handle = (Throw (ParseError parseError), st)
    /\ In (ConsoleError [ LStr "JSON parse error:"; LErr parseError;
                          LStr "Raw response:"; LStr response ]) (events st).
Proof.
  intros Hkey Hgather Hchat Hcontent Htruthy Hparse.
  run_monad. rewrite Hkey, Hgather.
  destruct (isValidApiKey (VITE_AWS_ACCESS_KEY_ID w)
            && isValidApiKey (VITE_AWS_SECRET_ACCESS_KEY w)); step;
    [destruct (invokeClaude w (industryPrompt intelligence)); step|..];
    destruct handle; step; rewrite ?Hkey; step;
    rewrite Hchat; step; rewrite Hcontent; step; rewrite Htruthy; step;
    rewrite Hparse; step;
    (eexists; split; [reflexivity|]);
    cbn [events]; repeat (first [left; reflexivity | right]).
Qed.

(** C5 (amended): when the primary provider's reply, once the code-fence
    markup is stripped, fails to parse, [generateRecommendations] throws
    the parse error, whose message is the fixed prefix followed by the
    parser's own error; the original reply is written to the error log
    next to the parser's error, and is not part of what is thrown. *)
Theorem C5_parse_failure_logs_raw_text
        (w : World) (context : CompanyContext) (handle : option OpenAI)
        (intelligence : WebResearch.CompanyIntelligence)
        (completion : Completion) (response : string) (parseError : JsError) :
  isValidApiKey (VITE_OPENAI_API_KEY w) = true ->
  gatherCompanyIntelligence w (companyName context) (websiteUrl context)
  = Return intelligence ->
  (forall client request, chat_completions_create w client request = Return completion) ->
  first_content completion = Some response ->
  JS.truthy response = true ->
  JSON_parse w (cleanResponse response) = Throw parseError ->
  exists st,
    run (generateRecommendations w context) handle = (Throw (ParseError parseError), st)
    /\ In (ConsoleError [ LStr "JSON parse error:"; LErr parseError;
                          LStr "Raw response:"; LStr response ]) (events st)
    /\ name (ParseError parseError) = "Error"
    /\ message (ParseError parseError)
       = "Failed to parse AI response as JSON: " +:+ toString parseError.
Proof.
  intros Hkey Hgather Hchat Hcontent Htruthy Hparse.
  destruct (parse_failure_run w context handle intelligence completion response
              parseError Hkey Hgather Hchat Hcontent Htruthy Hparse)
    as (st & Hrun & Hlog).
  exists st. repeat split; assumption || reflexivity.
Qed.

Lemma C5_witness :
  exists st,
    run (generateRecommendations
           (Samples.world (Some Samples.plausibleKey) None (Some Samples.fencedProse))
           (Samples.context false true false)) None
    = (Throw (ParseError SyntaxError), st)
    /\ In (ConsoleError [ LStr "JSON parse error:"; LErr SyntaxError;
                          LStr "Raw response:"; LStr Samples.fencedProse ])
          (events st)
    /\ name (ParseError SyntaxError) = "Error"
    /\ message (ParseError SyntaxError)
       = "Failed to parse AI response as JSON: " +:+ toString SyntaxError.
Proof.
  apply (C5_parse_failure_logs_raw_text
           (Samples.world (Some Samples.plausibleKey) None (Some Samples.fencedProse))
           (Samples.context false true false) None Samples.intelligence
           {| choices := [ {| message_of := Some {| content := Some Samples.fencedProse |} |} ] |}
           Samples.fencedProse SyntaxError);
    reflexivity.
Defined.

(** C5 as stated fails: here the reply is prose in a code fence, the text
    left after stripping is not valid JSON, the request fails with the
    parse error, and the error thrown holds the parser's message only;
    the reply occurs neither in its message nor in its name. *)
Lemma C5_counterexample :
  let w := Samples.world (Some Samples.plausibleKey) None (Some Samples.fencedProse) in
  JSON.parse_text (cleanResponse Samples.fencedProse) = JSON.Malformed
  /\ JSON_parse w (cleanResponse Samples.fencedProse) = Throw SyntaxError
  /\ fst (run (generateRecommendations w (Samples.context false true false)) None)
     = Throw (ParseError SyntaxError)
  /\ message (ParseError SyntaxError)
     = "Failed to parse AI response as JSON: SyntaxError: Unexpected token in JSON"
  /\ carries_text (ParseError SyntaxError) Samples.fencedProse = false.
Proof. repeat split; vm_compute; reflexivity. Qed.

(** C6: for every context, the recommendation [getFallbackRecommendations]
    builds passes the structure check [generateRecommendations] applies to
    a parsed reply: both [unitMetrics] and [conversationStarters] are
    there, and the check does not throw. *)
Theorem C6_fallback_passes_structure_check (context : CompanyContext) :
  validateStructure (recommendation_value (getFallbackRecommendations context))
  = Return tt.
Proof.
  destruct context as [n u e [] [] []]; reflexivity.
Qed.

End Pipeline.

(** * The fallback generator and the prompt's schema *)

Section Fallback.

Import Service.

(** The mapping the three conditional assignments build, for any three
    arrays. *)
Lemma insights_lookup (p g c : bool) (a b d : list string) :
  let m0 : gmap string (list string) := ∅ in
  let m1 := if p then <["ppa" := a]> m0 else m0 in
  let m2 := if g then <["genAI" := b]> m1 else m1 in
  let m3 := if c then <["cloudCostConcerns" := d]> m2 else m2 in
  m3 !! "ppa" = (if p then Some a else None)
  /\ m3 !! "genAI" = (if g then Some b else None)
  /\ m3 !! "cloudCostConcerns" = (if c then Some d else None)
  /\ (forall key items,
         m3 !! key = Some items ->
         (key = "ppa" /\ items = a) \/ (key = "genAI" /\ items = b)
         \/ (key = "cloudCostConcerns" /\ items = d)).
Proof.
  cbv zeta. repeat split.
  1-3: destruct p, g, c; simplify_map_eq; reflexivity.
  intros key items H.
  destruct p, g, c;
    repeat (apply lookup_insert_Some in H as [[<- <-]|[_ H]]; [tauto|]);
    rewrite lookup_empty in H; discriminate H.
Qed.

Lemma fallback_insights (context : CompanyContext) :
  conditionalInsights (getFallbackRecommendations context) =
  let m0 : gmap string (list string) := ∅ in
  let m1 := if ppa context then <["ppa" := ppaInsights (companyName context)]> m0 else m0 in
  let m2 := if genAI context then <["genAI" := genAIInsights (companyName context)]> m1 else m1 in
  if cloudCostConcerns context
  then <["cloudCostConcerns" := cloudCostInsights (companyName context)]> m2 else m2.
Proof.
  destruct context as [n u e [] [] []]; reflexivity.
Qed.

(** C2: for every context, [getFallbackRecommendations] (a total
    function of the context alone) returns five unit metrics, within the
    bounds four to five, and three conversation starters; each of the
    keys [ppa], [genAI] and [cloudCostConcerns] is in [conditionalInsights]
    exactly when its flag is set; a key whose flag is not set is absent
    rather than bound to an empty list; every list bound there has three
    items and no other key is bound. *)
Theorem C2_fallback_shape (context : CompanyContext) :
  let r := getFallbackRecommendations context in
  List.length (unitMetrics r) = 5
  /\ 4 <= List.length (unitMetrics r) <= 5
  /\ List.length (conversationStarters r) = 3
  /\ (is_Some (conditionalInsights r !! "ppa") <-> ppa context = true)
  /\ (is_Some (conditionalInsights r !! "genAI") <-> genAI context = true)
  /\ (is_Some (conditionalInsights r !! "cloudCostConcerns")
      <-> cloudCostConcerns context = true)
  /\ (ppa context = false -> conditionalInsights r !! "ppa" = None)
  /\ (genAI context = false -> conditionalInsights r !! "genAI" = None)
  /\ (cloudCostConcerns context = false ->
      conditionalInsights r !! "cloudCostConcerns" = None)
  /\ (forall key items,
         conditionalInsights r !! key = Some items ->
         List.length items = 3
         /\ In key ["ppa"; "genAI"; "cloudCostConcerns"]).
Proof.
  cbv zeta.
  assert (List.length (unitMetrics (getFallbackRecommendations context)) = 5
          /\ List.length (conversationStarters (getFallbackRecommendations context)) = 3)
    as [-> ->] by (destruct context as [n u e [] [] []]; split; reflexivity).
  split; [reflexivity|]. split; [lia|]. split; [reflexivity|].
  rewrite fallback_insights.
  destruct (insights_lookup (ppa context) (genAI context) (cloudCostConcerns context)
              (ppaInsights (companyName context))
              (genAIInsights (companyName context))
              (cloudCostInsights (companyName context)))
    as (Hp & Hg & Hc & Hother).
  cbv zeta in *. rewrite Hp, Hg, Hc.
  repeat split.
  1-9: destruct (ppa context), (genAI context), (cloudCostConcerns context);
       intros H; try discriminate H; try reflexivity; eauto;
       destruct H as [? H]; discriminate H.
  all: destruct (Hother key items H) as [[-> ->]|[[-> ->]|[-> ->]]];
       first [reflexivity | simpl; tauto].
Qed.

Lemma C2_witness :
  let r := getFallbackRecommendations (Samples.context true false true) in
  is_Some (conditionalInsights r !! "ppa")
  /\ conditionalInsights r !! "genAI" = None
  /\ (List.length <$> conditionalInsights r !! "cloudCostConcerns") = Some 3.
Proof.
  destruct (C2_fallback_shape (Samples.context true false true))
    as (_ & _ & _ & Hppa & _ & Hcloud & _ & Hgen & _ & Hlen).
  split; [apply Hppa; reflexivity|].
  split; [apply Hgen; reflexivity|].
  destruct (proj2 Hcloud eq_refl) as [items Hitems].
  rewrite Hitems. simpl. f_equal. apply (Hlen _ _ Hitems).
Defined.

End Fallback.

Section PromptSchema.

Import Service.

Lemma join_app (sep : string) (a b : list string) :
  a <> [] -> b <> [] ->
  JS.join sep (a ++ b) = JS.join sep a +:+ sep +:+ JS.join sep b.
Proof.
  intros Ha Hb. induction a as [|x a IH]; [contradiction|].
  destruct a as [|y a].
  - destruct b; [contradiction | reflexivity].
  - change (x +:+ sep +:+ JS.join sep ((y :: a) ++ b)
            = (x +:+ sep +:+ JS.join sep (y :: a)) +:+ sep +:+ JS.join sep b).
    rewrite IH by discriminate. rewrite !append_assoc. reflexivity.
Qed.

(** A text put between two non-empty groups of lines can be read off the
    result. *)
Lemma lines_embed (before : string) (above middle below : list string) :
  above <> [] -> middle <> [] -> below <> [] ->
  exists pre post,
    before +:+ nl +:+ lines (above ++ middle ++ below)
    = pre +:+ lines middle +:+ post.
Proof.
  intros Ha Hm Hb. unfold lines.
  exists (before +:+ nl +:+ JS.join nl above +:+ nl), (nl +:+ JS.join nl below).
  assert (middle ++ below <> []) as Hmb
    by (destruct middle; [contradiction | discriminate]).
  rewrite (join_app nl above _ Ha Hmb), (join_app nl middle below Hm Hb).
  rewrite !append_assoc. reflexivity.
Qed.

(** The prompt of every request contains the schema text of its context. *)
Lemma schema_embedded (context : CompanyContext)
      (intelligence : WebResearch.CompanyIntelligence) (industryAnalysis : string) :
  exists pre post,
    buildEnhancedPrompt context intelligence industryAnalysis
    = pre +:+ Schema.schemaText context +:+ post.
Proof.
  unfold buildEnhancedPrompt, Schema.schemaText. cbv zeta.
  apply lines_embed; [discriminate | unfold schemaLines; discriminate | discriminate].
Qed.

(** C1 (what the code does): the prompt of every request contains the
    schema text.  With only the [ppa] flag set, the [conditionalInsights]
    object of that schema ends with a separator that no member follows,
    and the schema is not well-formed JSON.  Over the eight flag
    combinations, the object (and with it the schema) is well-formed
    exactly when [cloudCostConcerns] is set or no flag is: a separator is
    left dangling whenever [ppa] or [genAI] is set and [cloudCostConcerns]
    is not.  When it is well-formed, its keys are those of the set flags. *)
Theorem C1_schema_trailing_separator :
  (forall context intelligence industryAnalysis,
      exists pre post,
        buildEnhancedPrompt context intelligence industryAnalysis
        = pre +:+ Schema.schemaText context +:+ post)
  /\ JSON.parse_text (Schema.schemaText (Samples.context true false false))
     = JSON.Malformed
  /\ Schema.trailing_separator (lines (conditionalInsightsLines true false false))
     = true
  /\ (forall ppa genAI cloudCostConcerns : bool,
         JSON.well_formed (Schema.conditionalInsightsObject ppa genAI cloudCostConcerns)
         = cloudCostConcerns || negb (ppa || genAI)
         /\ JSON.well_formed
              (Schema.schemaText (Samples.context ppa genAI cloudCostConcerns))
            = cloudCostConcerns || negb (ppa || genAI)
         /\ Schema.trailing_separator
              (lines (conditionalInsightsLines ppa genAI cloudCostConcerns))
            = (ppa || genAI) && negb cloudCostConcerns
         /\ Schema.member_names
              (Schema.conditionalInsightsObject ppa genAI cloudCostConcerns)
            = if cloudCostConcerns || negb (ppa || genAI)
              then Some ((if ppa then ["ppa"] else [])
                         ++ (if genAI then ["genAI"] else [])
                         ++ (if cloudCostConcerns then ["cloudCostConcerns"] else []))
              else None).
Proof.
  split; [exact schema_embedded|].
  split; [vm_compute; reflexivity|].
  split; [vm_compute; reflexivity|].
  intros [] [] []; repeat split; vm_compute; reflexivity.
Qed.

End PromptSchema.

(** * More on the recommendation service *)

Section ServiceExtras.

Import Service.

Ltac run_monad :=
  unfold run, generateRecommendations, getIndustryAnalysis, getOpenAI,
    try_catch, mbind, M_bind, bind, emit, throw, ret, lift;
  cbn [openai events fst snd].

Ltac step :=
  cbn -[buildEnhancedPrompt chatRequest cleanResponse validateStructure
        first_content keyPreview isValidApiKey industryPrompt industryFallback
        CredentialError ParseError].

Ltac explore :=
  repeat (step;
          match goal with
          | |- context [match ?x with _ => _ end] =>
              lazymatch x with
              | context [match _ with _ => _ end] => fail
              | _ => destruct x eqn:?
              end
          end);
  step.

(** X1: the structure check accepts exactly the objects whose
    [unitMetrics] and [conversationStarters] members are both truthy, so
    arrays of any length, the empty one included, pass; on [null] the
    check throws a [TypeError]; on everything else it throws the structure
    error. *)
Theorem X1_structure_check_decides (v : JSON.value) :
  (validateStructure v = Return tt <->
   exists members unitMetrics conversationStarters,
     v = JSON.Object members
     /\ JSON.member "unitMetrics" members = Some unitMetrics
     /\ JSON.truthy unitMetrics = true
     /\ JSON.member "conversationStarters" members = Some conversationStarters
     /\ JSON.truthy conversationStarters = true)
  /\ (forall members metrics starters,
         v = JSON.Object members ->
         JSON.member "unitMetrics" members = Some (JSON.Array metrics) ->
         JSON.member "conversationStarters" members = Some (JSON.Array starters) ->
         validateStructure v = Return tt)
  /\ (v = JSON.Null ->
      exists e, validateStructure v = Throw e /\ name e = "TypeError")
  /\ (v <> JSON.Null -> validateStructure v <> Return tt ->
      validateStructure v = Throw SchemaValidationError).
Proof.
  repeat split.
  - destruct v; try discriminate. unfold validateStructure, property.
    destruct (JSON.member "unitMetrics" members) as [um|] eqn:Hum;
      [|discriminate].
    cbn [falsy]. destruct (JSON.truthy um) eqn:Htum; [|discriminate].
    destruct (JSON.member "conversationStarters" members) as [cs|] eqn:Hcs;
      [|discriminate].
    cbn [falsy negb]. destruct (JSON.truthy cs) eqn:Htcs; [|discriminate].
    intros _. exists members, um, cs. auto.
  - intros (members & um & cs & -> & Hum & Htum & Hcs & Htcs).
    unfold validateStructure, property. rewrite Hum. cbn [falsy].
    rewrite Htum, Hcs. cbn [falsy negb]. rewrite Htcs. reflexivity.
  - intros members metrics starters -> Hum Hcs.
    unfold validateStructure, property. rewrite Hum, Hcs. reflexivity.
  - intros ->. eexists. split; reflexivity.
  - intros Hnull Hnot. destruct v; try reflexivity; try contradiction.
    unfold validateStructure, property in *.
    destruct (JSON.member "unitMetrics" members) as [um|]; [|reflexivity].
    cbn [falsy] in *. destruct (JSON.truthy um); [|reflexivity].
    cbn [negb] in *.
    destruct (JSON.member "conversationStarters" members) as [cs|]; [|reflexivity].
    cbn [falsy] in *. destruct (JSON.truthy cs); [|reflexivity].
    contradiction.
Qed.

Lemma X1_witness :
  validateStructure
    (JSON.Object [ ("unitMetrics", JSON.Array []);
                   ("conversationStarters", JSON.Array []) ]) = Return tt
  /\ (exists e, validateStructure JSON.Null = Throw e /\ name e = "TypeError")
  /\ validateStructure (JSON.Object [ ("unitMetrics", JSON.Str "") ])
     = Throw SchemaValidationError.
Proof.
  split.
  - apply (proj1 (proj2 (X1_structure_check_decides
                             (JSON.Object [ ("unitMetrics", JSON.Array []);
                                            ("conversationStarters", JSON.Array []) ])))
             [ ("unitMetrics", JSON.Array []); ("conversationStarters", JSON.Array []) ]
             [] []); reflexivity.
  - split.
    + apply (proj1 (proj2 (proj2 (X1_structure_check_decides JSON.Null)))).
      reflexivity.
    + apply (proj2 (proj2 (proj2 (X1_structure_check_decides
                                    (JSON.Object [ ("unitMetrics", JSON.Str "") ]))))).
      * discriminate.
      * vm_compute. discriminate.
Defined.

(** X2: once the gatherer and the primary provider have answered, the
    reply alone decides the result of [generateRecommendations]: no
    content or empty content gives the no-response error; a text that does
    not parse after cleaning gives the parse error; a parsed value that
    fails the structure check gives that check's error; otherwise the
    parsed value itself is returned, unchanged. *)
Theorem X2_reply_decides_result
        (w : World) (context : CompanyContext) (handle : option OpenAI)
        (intelligence : WebResearch.CompanyIntelligence) (completion : Completion) :
  isValidApiKey (VITE_OPENAI_API_KEY w) = true ->
  gatherCompanyIntelligence w (companyName context) (websiteUrl context)
  = Return intelligence ->
  (forall client request, chat_completions_create w client request = Return completion) ->
  fst (run (generateRecommendations w context) handle)
  = Calls.replyOutcome w completion.
Proof.
  intros Hkey Hgather Hchat. unfold Calls.replyOutcome.
  run_monad. rewrite Hkey, Hgather.
  destruct (isValidApiKey (VITE_AWS_ACCESS_KEY_ID w)
            && isValidApiKey (VITE_AWS_SECRET_ACCESS_KEY w)); step;
    [destruct (invokeClaude w (industryPrompt intelligence)); step|..];
    destruct handle; step; rewrite ?Hkey; step; rewrite Hchat; step;
    (destruct (first_content completion) as [response|]; step; [|reflexivity]);
    (destruct (JS.truthy response); step; [|reflexivity]);
    (destruct (JSON_parse w (cleanResponse response)) as [v|pe]; step;
     [|reflexivity]);
    destruct (validateStructure v); reflexivity.
Qed.

Lemma X2_witness :
  fst (run (generateRecommendations
              (Samples.world (Some Samples.plausibleKey) None (Some "null"))
              (Samples.context false false false)) None)
  = Throw (Calls.TypeError_of_null "unitMetrics")
  /\ fst (run (generateRecommendations
                 (Samples.world (Some Samples.plausibleKey) None (Some "[1, 2]"))
                 (Samples.context false false false)) None)
     = Throw SchemaValidationError
  /\ fst (run (generateRecommendations
                 (Samples.world (Some Samples.plausibleKey) None None)
                 (Samples.context false false false)) None)
     = Throw ProviderResponseError.
Proof.
  split; [|split].
  - rewrite (X2_reply_decides_result
               (Samples.world (Some Samples.plausibleKey) None (Some "null"))
               (Samples.context false false false) None Samples.intelligence
               {| choices := [ {| message_of := Some {| content := Some "null" |} |} ] |});
      reflexivity.
  - rewrite (X2_reply_decides_result
               (Samples.world (Some Samples.plausibleKey) None (Some "[1, 2]"))
               (Samples.context false false false) None Samples.intelligence
               {| choices := [ {| message_of := Some {| content := Some "[1, 2]" |} |} ] |});
      reflexivity.
  - rewrite (X2_reply_decides_result
               (Samples.world (Some Samples.plausibleKey) None None)
               (Samples.context false false false) None Samples.intelligence
               {| choices := [ {| message_of := Some {| content := None |} |} ] |});
      reflexivity.
Defined.

(** X3: a failure of the gatherer ends the request with the gatherer's
    own error, unchanged; the request has reached the gatherer and nothing
    else, has logged the error, and leaves the client handle as it was. *)
Theorem X3_gatherer_failure_propagates
        (w : World) (context : CompanyContext) (handle : option OpenAI)
        (failure : JsError) :
  isValidApiKey (VITE_OPENAI_API_KEY w) = true ->
  gatherCompanyIntelligence w (companyName context) (websiteUrl context)
  = Throw failure ->
  exists st,
    run (generateRecommendations w context) handle = (Throw failure, st)
    /\ Calls.kinds st = [Calls.Gatherer]
    /\ last (events st)
       = Some (ConsoleError [LStr "Error generating AI recommendations:"; LErr failure])
    /\ openai st = handle.
Proof.
  intros Hkey Hgather. run_monad. rewrite Hkey, Hgather.
  destruct (isValidApiKey (VITE_AWS_ACCESS_KEY_ID w)
            && isValidApiKey (VITE_AWS_SECRET_ACCESS_KEY w)); step;
    eexists; repeat split; reflexivity.
Qed.

Lemma X3_witness :
  let w := {| VITE_OPENAI_API_KEY := Some Samples.plausibleKey;
              VITE_AWS_ACCESS_KEY_ID := None;
              VITE_AWS_SECRET_ACCESS_KEY := None;
              gatherCompanyIntelligence := fun _ _ => Throw Samples.bedrockDown;
              invokeClaude := fun _ => Throw Samples.bedrockDown;
              chat_completions_create := fun _ _ => Throw Samples.bedrockDown;
              JSON_parse := platform_JSON_parse |} in
  exists st,
    run (generateRecommendations w (Samples.context true false false)) None
    = (Throw Samples.bedrockDown, st)
    /\ Calls.kinds st = [Calls.Gatherer]
    /\ last (events st)
       = Some (ConsoleError [LStr "Error generating AI recommendations:";
                             LErr Samples.bedrockDown])
    /\ openai st = None.
Proof.
  cbv zeta.
  apply (X3_gatherer_failure_propagates
           {| VITE_OPENAI_API_KEY := Some Samples.plausibleKey;
              VITE_AWS_ACCESS_KEY_ID := None;
              VITE_AWS_SECRET_ACCESS_KEY := None;
              gatherCompanyIntelligence := fun _ _ => Throw Samples.bedrockDown;
              invokeClaude := fun _ => Throw Samples.bedrockDown;
              chat_completions_create := fun _ _ => Throw Samples.bedrockDown;
              JSON_parse := platform_JSON_parse |}
           (Samples.context true false false) None Samples.bedrockDown);
    reflexivity.
Defined.

(** X4: every request reaches its collaborators in one fixed order and
    each at most once: the gatherer, then the secondary provider, then the
    primary provider.  Nothing is retried, no provider is reached before
    the gatherer, and no collaborator is reached at all exactly when the
    primary key is implausible. *)
Theorem X4_call_discipline
        (w : World) (context : CompanyContext) (handle : option OpenAI) :
  let st := snd (run (generateRecommendations w context) handle) in
  In (Calls.kinds st)
     [ []; [Calls.Gatherer];
       [Calls.Gatherer; Calls.Secondary];
       [Calls.Gatherer; Calls.Primary];
       [Calls.Gatherer; Calls.Secondary; Calls.Primary] ]
  /\ (Calls.kinds st = [] <-> isValidApiKey (VITE_OPENAI_API_KEY w) = false).
Proof.
  cbv zeta.
  destruct (isValidApiKey (VITE_OPENAI_API_KEY w)) eqn:Hkey.
  - run_monad. rewrite Hkey.
    explore; (split; [simpl; tauto | split; discriminate]).
  - rewrite (invalid_primary_run w context handle Hkey).
    split; [left; reflexivity | split; reflexivity].
Qed.

Lemma X4_witness :
  Calls.kinds (snd (run (generateRecommendations (Samples.world None None None)
                           (Samples.context true true true)) None)) = [].
Proof.
  apply (proj2 (X4_call_discipline (Samples.world None None None)
                  (Samples.context true true true) None)).
  reflexivity.
Defined.

(** X5: when the primary key is plausible and the gatherer answers, the
    primary provider is asked exactly once, with the fixed sampling
    settings and the prompt built from the context, the gathered record
    and the analysis text: empty without a plausible secondary key pair,
    otherwise the secondary provider's answer or, on its failure, the
    fixed sentence.  The client is the static handle when there is one and
    a new client on the environment's key otherwise, and it is the handle
    left behind, whatever the primary provider then answers. *)
Theorem X5_primary_request
        (w : World) (context : CompanyContext) (handle : option OpenAI)
        (intelligence : WebResearch.CompanyIntelligence) :
  isValidApiKey (VITE_OPENAI_API_KEY w) = true ->
  gatherCompanyIntelligence w (companyName context) (websiteUrl context)
  = Return intelligence ->
  let st := snd (run (generateRecommendations w context) handle) in
  List.filter is_external_call (events st)
  = [ GatherCall (companyName context) (websiteUrl context) ]
    ++ (if isValidApiKey (VITE_AWS_ACCESS_KEY_ID w)
           && isValidApiKey (VITE_AWS_SECRET_ACCESS_KEY w)
        then [ BedrockCall (industryPrompt intelligence) ] else [])
    ++ [ OpenAICall (Calls.clientOf w handle)
           (chatRequest (buildEnhancedPrompt context intelligence
                           (Calls.analysisText w intelligence))) ]
  /\ openai st = Some (Calls.clientOf w handle).
Proof.
  intros Hkey Hgather. cbv zeta. unfold Calls.analysisText, Calls.clientOf.
  run_monad. rewrite Hkey, Hgather.
  destruct (isValidApiKey (VITE_AWS_ACCESS_KEY_ID w)
            && isValidApiKey (VITE_AWS_SECRET_ACCESS_KEY w)); step;
    [destruct (invokeClaude w (industryPrompt intelligence)); step|..];
    destruct handle; step; rewrite ?Hkey; step;
    explore; split; reflexivity.
Qed.

Lemma X5_witness :
  let w := Samples.world (Some Samples.plausibleKey) (Some Samples.plausibleKey)
             (Some "{}") in
  let st := snd (run (generateRecommendations w (Samples.context true false false))
                   None) in
  List.filter is_external_call (events st)
  = [ GatherCall "Acme" "https://www.acme.com";
      BedrockCall (industryPrompt Samples.intelligence);
      OpenAICall {| apiKey := Some Samples.plausibleKey; dangerouslyAllowBrowser := true |}
        (chatRequest (buildEnhancedPrompt (Samples.context true false false)
                        Samples.intelligence
                        (industryFallback Samples.intelligence))) ]
  /\ openai st
     = Some {| apiKey := Some Samples.plausibleKey; dangerouslyAllowBrowser := true |}.
Proof.
  cbv zeta.
  apply (X5_primary_request
           (Samples.world (Some Samples.plausibleKey) (Some Samples.plausibleKey)
              (Some "{}"))
           (Samples.context true false false) None Samples.intelligence);
    reflexivity.
Defined.

(** X6: [getOpenAI] builds the client at most once.  With a handle in
    place it returns that handle and changes nothing, whatever the
    environment's key has become; without one it stores and returns a new
    client on the environment's key when that key is plausible, and throws,
    storing nothing, when it is not.  A second call after a successful one
    returns the same client and leaves the state as it is. *)
Theorem X6_client_is_built_once (w w' : World) (st : State) :
  (forall client, openai st = Some client ->
                  getOpenAI w st = (Return client, st))
  /\ (openai st = None -> isValidApiKey (VITE_OPENAI_API_KEY w) = true ->
      getOpenAI w st
      = (Return {| apiKey := VITE_OPENAI_API_KEY w; dangerouslyAllowBrowser := true |},
         {| openai := Some {| apiKey := VITE_OPENAI_API_KEY w;
                              dangerouslyAllowBrowser := true |};
            events := events st |}))
  /\ (openai st = None -> isValidApiKey (VITE_OPENAI_API_KEY w) = false ->
      exists e, getOpenAI w st = (Throw e, st))
  /\ (forall client st1,
         getOpenAI w st = (Return client, st1) ->
         getOpenAI w' st1 = (Return client, st1)).
Proof.
  unfold getOpenAI. repeat split.
  - intros client ->. reflexivity.
  - intros -> ->. reflexivity.
  - intros -> ->. eexists. reflexivity.
  - intros client st1. destruct (openai st) as [c|] eqn:Hst.
    + intros [= <- <-]. rewrite Hst. reflexivity.
    + destruct (isValidApiKey (VITE_OPENAI_API_KEY w)); cbn [negb];
        [|discriminate].
      intros [= <- <-]. reflexivity.
Qed.

Lemma X6_witness :
  let stale := Samples.world (Some "your_openai_api_key_here") None None in
  let fresh := Samples.world (Some Samples.plausibleKey) None None in
  let client := {| apiKey := Some Samples.plausibleKey; dangerouslyAllowBrowser := true |} in
  getOpenAI fresh {| openai := None; events := [] |}
  = (Return client, {| openai := Some client; events := [] |})
  /\ getOpenAI stale {| openai := Some client; events := [] |}
     = (Return client, {| openai := Some client; events := [] |})
  /\ (exists e, getOpenAI stale {| openai := None; events := [] |}
                = (Throw e, {| openai := None; events := [] |})).
Proof.
  cbv zeta.
  split; [|split].
  - apply (proj1 (proj2 (X6_client_is_built_once
                           (Samples.world (Some Samples.plausibleKey) None None)
                           (Samples.world (Some Samples.plausibleKey) None None)
                           {| openai := None; events := [] |}))); reflexivity.
  - apply (proj2 (proj2 (proj2 (X6_client_is_built_once
                           (Samples.world (Some Samples.plausibleKey) None None)
                           (Samples.world (Some "your_openai_api_key_here") None None)
                           {| openai := None; events := [] |})))).
    reflexivity.
  - apply (proj1 (proj2 (proj2 (X6_client_is_built_once
                           (Samples.world (Some "your_openai_api_key_here") None None)
                           (Samples.world (Some "your_openai_api_key_here") None None)
                           {| openai := None; events := [] |})))); reflexivity.
Defined.

End ServiceExtras.

(** * Cleaning a reply *)

Section CleanResponse.

Import Service.
Import IdentityValidator (contains).

Lemma remove_go_unfold (pat : string) (c : ascii) (s : string) :
  JS.remove_go pat 0 (String c s) =
  if JS.has_prefix pat (String c s)
  then JS.remove_go pat
         (String.length pat - 1
          + (if JS.has_prefix nl (JS.drop (String.length pat) (String c s))
             then 1 else 0)) s
  else String c (JS.remove_go pat 0 s).
Proof. reflexivity. Qed.

Lemma has_prefix_backtick (pat : string) (c : ascii) (s : string) :
  Ascii.eqb c Fence.backtick = false ->
  JS.has_prefix (String Fence.backtick pat) (String c s) = false.
Proof.
  intros H. cbn [JS.has_prefix]. rewrite Ascii.eqb_sym, H. reflexivity.
Qed.

(** Where no fence starts, none starts in what the removal leaves. *)
Lemma remove_keeps_no_fence_start (s : string) :
  JS.has_prefix Fence.fence s = false ->
  JS.has_prefix Fence.fence (JS.remove_go Fence.fence 0 s) = false.
Proof.
  unfold Fence.fence.
  destruct s as [|c s]; [reflexivity|]. intros H.
  rewrite remove_go_unfold, H. revert H. cbn [JS.has_prefix].
  destruct (Ascii.eqb "`" c) eqn:Hc; [|reflexivity].
  destruct s as [|d s]; [reflexivity|].
  destruct (Ascii.eqb "`" d) eqn:Hd.
  - destruct s as [|e s].
    + intros _. rewrite remove_go_unfold. cbn [JS.has_prefix]. rewrite Hd.
      cbn [JS.remove_go JS.has_prefix]. rewrite Hd. reflexivity.
    + destruct (Ascii.eqb "`" e) eqn:He; [discriminate|]. intros _.
      rewrite remove_go_unfold. cbn [JS.has_prefix]. rewrite Hd, He.
      rewrite remove_go_unfold. cbn [JS.has_prefix]. rewrite He.
      cbn [JS.has_prefix]. rewrite Hd, He. reflexivity.
  - intros _. rewrite remove_go_unfold. cbn [JS.has_prefix]. rewrite Hd.
    cbn [JS.has_prefix]. rewrite Hd. reflexivity.
Qed.

Lemma remove_leaves_no_fence (s : string) (skip : nat) :
  JS.includes (JS.remove_go Fence.fence skip s) Fence.fence = false.
Proof.
  revert skip. induction s as [|c s IH]; intros skip; [reflexivity|].
  destruct skip as [|k]; [|exact (IH k)].
  destruct (JS.has_prefix Fence.fence (String c s)) eqn:Hm.
  - rewrite remove_go_unfold, Hm. apply IH.
  - pose proof (remove_keeps_no_fence_start _ Hm) as Hstart.
    rewrite remove_go_unfold, Hm in *.
    rewrite includes_unfold, Hstart. apply IH.
Qed.

Lemma contains_inside (s p pre post : string) :
  contains s p -> contains (pre +:+ s +:+ post) p.
Proof.
  intros (a & b & ->). exists (pre +:+ a), (b +:+ post).
  rewrite !append_assoc. reflexivity.
Qed.

Lemma trimStart_suffix (s : string) : exists pre, s = pre +:+ JS.trimStart s.
Proof.
  induction s as [|c s [pre IH]]; [exists ""; reflexivity|].
  cbn [JS.trimStart]. destruct (JS.is_space c).
  - exists (String c pre). rewrite append_cons, <- IH. reflexivity.
  - exists "". reflexivity.
Qed.

Lemma trimEnd_prefix (s : string) : exists post, s = JS.trimEnd s +:+ post.
Proof.
  unfold JS.trimEnd. destruct (trimStart_suffix (String.rev s)) as [pre H].
  exists (String.rev pre).
  rewrite <- rev_append_distr, <- H, rev_rev. reflexivity.
Qed.

Lemma trim_inside (s : string) : exists pre post, s = pre +:+ JS.trim s +:+ post.
Proof.
  unfold JS.trim. destruct (trimStart_suffix s) as [pre Hpre].
  destruct (trimEnd_prefix (JS.trimStart s)) as [post Hpost].
  exists pre, post. rewrite <- Hpost. exact Hpre.
Qed.

(** X7: whatever the reply is, the text handed to [JSON.parse] holds no
    code fence: three backticks in a row never survive the cleaning. *)
Theorem X7_cleaned_reply_has_no_fence (response : string) :
  JS.includes (cleanResponse response) Fence.fence = false.
Proof.
  destruct (JS.includes (cleanResponse response) Fence.fence) eqn:H;
    [|reflexivity].
  apply includes_spec in H. unfold cleanResponse in H.
  destruct (trim_inside (JS.remove_with_line_feed "```"
                           (JS.remove_with_line_feed "```json" response)))
    as (pre & post & Heq).
  apply (contains_inside _ _ pre post) in H. rewrite <- Heq in H.
  apply includes_spec in H.
  unfold JS.remove_with_line_feed in H at 1.
  rewrite (remove_leaves_no_fence _ 0) in H. discriminate H.
Qed.

(** A pattern that starts with a backtick leaves text without backticks
    alone, and the removal goes on behind it. *)
Lemma remove_go_no_backtick (pat body rest : string) :
  Fence.no_backtick body ->
  JS.remove_go (String Fence.backtick pat) 0 (body +:+ rest)
  = body +:+ JS.remove_go (String Fence.backtick pat) 0 rest.
Proof.
  unfold Fence.no_backtick.
  induction body as [|c body IH]; [reflexivity|].
  cbn [JS.every]. intros [Hc Hb]%andb_true_iff. apply negb_true_iff in Hc.
  rewrite !append_cons, remove_go_unfold, (has_prefix_backtick _ _ _ Hc), (IH Hb).
  reflexivity.
Qed.

Lemma trimStart_append_space (s : string) (c : ascii) :
  JS.is_space c = true ->
  JS.trimStart (s +:+ String c "")
  = if JS.every JS.is_space s then "" else JS.trimStart s +:+ String c "".
Proof.
  intros Hc. induction s as [|a s IH].
  - rewrite append_nil_l. cbn [JS.trimStart JS.every]. rewrite Hc. reflexivity.
  - rewrite append_cons. cbn [JS.trimStart JS.every].
    destruct (JS.is_space a); [exact IH | reflexivity].
Qed.

Lemma trimEnd_append_space (s : string) (c : ascii) :
  JS.is_space c = true -> JS.trimEnd (s +:+ String c "") = JS.trimEnd s.
Proof.
  intros Hc. unfold JS.trimEnd.
  rewrite rev_append_distr.
  change (String.rev (String c "")) with (String c "").
  rewrite append_cons, append_nil_l. cbn [JS.trimStart]. rewrite Hc.
  reflexivity.
Qed.

Lemma trim_append_space (s : string) (c : ascii) :
  JS.is_space c = true -> JS.trim (s +:+ String c "") = JS.trim s.
Proof.
  intros Hc. unfold JS.trim. rewrite (trimStart_append_space s c Hc).
  destruct (JS.every JS.is_space s) eqn:Hs.
  - apply trimStart_empty in Hs. rewrite Hs. reflexivity.
  - apply trimEnd_append_space, Hc.
Qed.

Lemma remove_json_fence_head (rest : string) :
  JS.remove_go "```json" 0 ("```json" +:+ nl +:+ rest) = JS.remove_go "```json" 0 rest.
Proof. reflexivity. Qed.

Lemma remove_json_bare_head (rest : string) :
  JS.remove_go "```json" 0 ("```" +:+ nl +:+ rest)
  = "```" +:+ nl +:+ JS.remove_go "```json" 0 rest.
Proof. reflexivity. Qed.

Lemma remove_bare_fence_head (rest : string) :
  JS.remove_go "```" 0 ("```" +:+ nl +:+ rest) = JS.remove_go "```" 0 rest.
Proof. reflexivity. Qed.

Lemma remove_json_tail : JS.remove_go "```json" 0 (nl +:+ "```") = nl +:+ "```".
Proof. reflexivity. Qed.

Lemma remove_bare_tail : JS.remove_go "```" 0 (nl +:+ "```") = nl.
Proof. reflexivity. Qed.

(** X8: a reply that is a body without backticks between a [json] fence
    and a closing fence, or between two bare fences, or not fenced at all,
    is handed to [JSON.parse] as that body, trimmed. *)
Theorem X8_fenced_reply_is_unwrapped (body : string) :
  Fence.no_backtick body ->
  cleanResponse (Fence.jsonFenced body) = JS.trim body
  /\ cleanResponse (Fence.plainFenced body) = JS.trim body
  /\ cleanResponse body = JS.trim body.
Proof.
  intros Hb.
  pose proof (remove_go_no_backtick "``json" body (nl +:+ "```") Hb) as Hjson.
  pose proof (remove_go_no_backtick "``" body (nl +:+ "```") Hb) as Hbare.
  change (String Fence.backtick "``json") with "```json" in Hjson.
  change (String Fence.backtick "``") with "```" in Hbare.
  rewrite remove_json_tail in Hjson. rewrite remove_bare_tail in Hbare.
  assert (JS.trim (body +:+ nl) = JS.trim body) as Htrim
    by (apply trim_append_space; reflexivity).
  unfold cleanResponse, JS.remove_with_line_feed, Fence.jsonFenced, Fence.plainFenced.
  repeat split.
  - rewrite remove_json_fence_head, Hjson, Hbare. exact Htrim.
  - rewrite remove_json_bare_head, Hjson, remove_bare_fence_head, Hbare.
    exact Htrim.
  - pose proof (remove_go_no_backtick "``json" body "" Hb) as H1.
    pose proof (remove_go_no_backtick "``" body "" Hb) as H2.
    change (String Fence.backtick "``json") with "```json" in H1.
    change (String Fence.backtick "``") with "```" in H2.
    rewrite append_nil_r in H1, H2.
    change (JS.remove_go "```json" 0 "") with "" in H1.
    change (JS.remove_go "```" 0 "") with "" in H2.
    rewrite append_nil_r in H1, H2.
    rewrite H1, H2. reflexivity.
Qed.

Lemma X8_witness :
  cleanResponse (Fence.jsonFenced "{ }") = "{ }"
  /\ cleanResponse (Fence.plainFenced " [1, 2] ") = "[1, 2]".
Proof.
  split.
  - apply (proj1 (X8_fenced_reply_is_unwrapped "{ }" eq_refl)).
  - apply (proj1 (proj2 (X8_fenced_reply_is_unwrapped " [1, 2] " eq_refl))).
Defined.

End CleanResponse.

(** * The component's submit handler *)

Section Submit.

Import Service.
Import AppComponent.
Import IdentityValidator.

Ltac run_monad :=
  unfold run, generateRecommendations, getIndustryAnalysis, getOpenAI,
    try_catch, mbind, M_bind, bind, emit, throw, ret, lift;
  cbn [openai events fst snd].

Ltac step :=
  cbn -[buildEnhancedPrompt chatRequest cleanResponse validateStructure
        first_content keyPreview isValidApiKey industryPrompt industryFallback
        CredentialError ParseError].

Ltac explore :=
  repeat (step;
          match goal with
          | |- context [match ?x with _ => _ end] =>
              lazymatch x with
              | context [match _ with _ => _ end] => fail
              | _ => destruct x eqn:?
              end
          end);
  step.

(** Every request writes its key status log first. *)
Lemma request_logs_first (w : World) (context : CompanyContext)
      (handle : option OpenAI) :
  events (snd (run (generateRecommendations w context) handle)) <> [].
Proof. run_monad. explore; discriminate. Qed.

Lemma submit_blank (w : World) (handle : option OpenAI) (st : AppState) :
  blank (companyName (formData st)) \/ blank (websiteUrl (formData st)) ->
  submit w handle st
  = (apply_updates st [ SetErrorMessage missingInputMessage; SetShowErrorModal true ],
     {| openai := handle; events := [] |}).
Proof.
  intros Hb. unfold submit, handleSubmit, run.
  assert (negb (JS.truthy (JS.trim (companyName (formData st))))
          || negb (JS.truthy (JS.trim (websiteUrl (formData st)))) = true) as ->.
  { destruct Hb as [H|H]; rewrite (guard_skips _ H);
      [reflexivity | apply orb_true_r]. }
  reflexivity.
Qed.

Lemma submit_mismatch (w : World) (handle : option OpenAI) (st : AppState) :
  ~ blank (companyName (formData st)) -> ~ blank (websiteUrl (formData st)) ->
  App.validateCompanyUrlMatch (companyName (formData st)) (websiteUrl (formData st))
  = false ->
  submit w handle st
  = (apply_updates st [ SetValidationWarning (Some (mismatchWarning (formData st))) ],
     {| openai := handle; events := [] |}).
Proof.
  intros Hn Hu Hv. unfold submit, handleSubmit, run.
  rewrite (guard_passes _ Hn), Hv.
  pose proof (guard_passes _ Hu) as Hg. rewrite Hg.
  apply negb_false_iff in Hg. rewrite Hg. reflexivity.
Qed.

Lemma submit_request (w : World) (handle : option OpenAI) (st : AppState) :
  ~ blank (companyName (formData st)) -> ~ blank (websiteUrl (formData st)) ->
  App.validateCompanyUrlMatch (companyName (formData st)) (websiteUrl (formData st))
  = true ->
  let request := run (generateRecommendations w (formData st)) handle in
  fst (submit w handle st) = afterRequest st (fst request)
  /\ openai (snd (submit w handle st)) = openai (snd request)
  /\ events (snd (submit w handle st))
     = events (snd request)
       ++ match fst request with
          | Return _ => []
          | Throw e => [ ConsoleError [LStr "Error generating recommendations:"; LErr e] ]
          end.
Proof.
  intros Hn Hu Hv. cbv zeta. unfold submit, handleSubmit, run.
  rewrite (guard_passes _ Hn), Hv.
  pose proof (guard_passes _ Hu) as Hg. rewrite Hg. cbn [orb andb negb].
  rewrite andb_false_r.
  unfold try_catch, mbind, M_bind, bind, ret, emit.
  destruct (generateRecommendations w (formData st) _) as [[recs|e] s];
    cbn [fst snd openai events afterRequest apply_updates fold_left app apply_update
         formData recommendations isGenerating validationWarning showErrorModal
         errorMessage];
    repeat split; try reflexivity.
  symmetry. apply app_nil_r.
Qed.

(** X9: a submit with a blank company name or a blank website URL only
    opens the error modal with the missing-input message; the service is
    not called, and the form data, the recommendations, the warning and
    the spinner flag stay as they were. *)
Theorem X9_blank_submit_is_refused
        (w : World) (handle : option OpenAI) (st : AppState) :
  blank (companyName (formData st)) \/ blank (websiteUrl (formData st)) ->
  submit w handle st
  = ({| formData := formData st; recommendations := recommendations st;
        isGenerating := isGenerating st; validationWarning := validationWarning st;
        showErrorModal := true; errorMessage := missingInputMessage |},
     {| openai := handle; events := [] |}).
Proof. intros Hb. rewrite (submit_blank w handle st Hb). reflexivity. Qed.

Lemma X9_witness :
  submit (Samples.world (Some Samples.plausibleKey) None (Some "{}")) None initialState
  = ({| formData := emptyForm; recommendations := None; isGenerating := false;
        validationWarning := None; showErrorModal := true;
        errorMessage := "Please enter both a company name and website URL to continue." |},
     {| openai := None; events := [] |}).
Proof.
  apply (X9_blank_submit_is_refused
           (Samples.world (Some Samples.plausibleKey) None (Some "{}")) None
           initialState).
  left. reflexivity.
Defined.

(** X10: a submit whose non-blank name and URL do not match only sets the
    mismatch warning and calls no collaborator, whatever the warning cell
    held before.  So after "Proceed Anyway", which only clears the
    warning, the same submit sets the same warning again: the service is
    never reached with form data the validator rejects. *)
Theorem X10_mismatch_always_warns
        (w : World) (handle : option OpenAI) (st : AppState) :
  ~ blank (companyName (formData st)) -> ~ blank (websiteUrl (formData st)) ->
  App.validateCompanyUrlMatch (companyName (formData st)) (websiteUrl (formData st))
  = false ->
  let warned :=
    {| formData := formData st; recommendations := recommendations st;
       isGenerating := isGenerating st;
       validationWarning := Some (mismatchWarning (formData st));
       showErrorModal := showErrorModal st; errorMessage := errorMessage st |} in
  submit w handle st = (warned, {| openai := handle; events := [] |})
  /\ validationWarning (apply_updates warned proceedAnyway) = None
  /\ submit w handle (apply_updates warned proceedAnyway)
     = (warned, {| openai := handle; events := [] |}).
Proof.
  intros Hn Hu Hv. cbv zeta. split; [|split].
  - rewrite (submit_mismatch w handle st Hn Hu Hv). reflexivity.
  - reflexivity.
  - rewrite submit_mismatch; [reflexivity|exact Hn|exact Hu|exact Hv].
Qed.

Lemma X10_witness :
  let st := {| formData := {| companyName := "Acme Corp";
                              websiteUrl := "https://www.globex.com"; email := "";
                              ppa := true; genAI := false; cloudCostConcerns := false |};
               recommendations := None; isGenerating := false;
               validationWarning := None; showErrorModal := false;
               errorMessage := "" |} in
  let w := Samples.world (Some Samples.plausibleKey) None (Some "{}") in
  validationWarning (fst (submit w None st)) = Some (mismatchWarning (formData st))
  /\ snd (submit w None (apply_updates (fst (submit w None st)) proceedAnyway))
     = {| openai := None; events := [] |}.
Proof.
  cbv zeta.
  destruct (X10_mismatch_always_warns
              (Samples.world (Some Samples.plausibleKey) None (Some "{}")) None
              {| formData := {| companyName := "Acme Corp";
                                websiteUrl := "https://www.globex.com"; email := "";
                                ppa := true; genAI := false;
                                cloudCostConcerns := false |};
                 recommendations := None; isGenerating := false;
                 validationWarning := None; showErrorModal := false;
                 errorMessage := "" |})
    as (H1 & _ & H3).
  - intro H; vm_compute in H; discriminate H.
  - intro H; vm_compute in H; discriminate H.
  - reflexivity.
  - cbv zeta in H1, H3. rewrite H1. cbn [fst]. rewrite H3. split; reflexivity.
Defined.

(** X11: a submit calls the service exactly when neither input is blank
    and one of the four identity conditions holds; in every other case it
    leaves no trace in the service's state. *)
Theorem X11_service_is_called_iff
        (w : World) (handle : option OpenAI) (st : AppState) :
  (events (snd (submit w handle st)) <> [] <->
   ~ blank (companyName (formData st)) /\ ~ blank (websiteUrl (formData st))
   /\ matches_spec (companyName (formData st)) (websiteUrl (formData st)))
  /\ (events (snd (submit w handle st)) = [] ->
      snd (submit w handle st) = {| openai := handle; events := [] |}).
Proof.
  assert (forall s, blank s \/ ~ blank s) as Hdec.
  { intros s. unfold blank. destruct (JS.every JS.is_space s); [left|right]; congruence. }
  destruct (Hdec (companyName (formData st))) as [Hn|Hn].
  { rewrite (submit_blank w handle st (or_introl Hn)). cbn [snd events].
    split; [split; [congruence | tauto] | reflexivity]. }
  destruct (Hdec (websiteUrl (formData st))) as [Hu|Hu].
  { rewrite (submit_blank w handle st (or_intror Hu)). cbn [snd events].
    split; [split; [congruence | tauto] | reflexivity]. }
  pose proof (validate_spec _ _ Hn Hu) as Hspec.
  destruct (App.validateCompanyUrlMatch (companyName (formData st))
              (websiteUrl (formData st))) eqn:Hv.
  - destruct (submit_request w handle st Hn Hu Hv) as (_ & _ & Hev).
    pose proof (request_logs_first w (formData st) handle) as Hlog.
    assert (events (snd (submit w handle st)) <> []) as Hne.
    { rewrite Hev. intros Happ. apply app_eq_nil in Happ. tauto. }
    split; [split; [intros _; repeat split; try assumption; apply Hspec; reflexivity
                   | intros _; exact Hne]
           | intros Hnil; contradiction].
  - rewrite (submit_mismatch w handle st Hn Hu Hv). cbn [snd events].
    split; [split; [congruence|] | reflexivity].
    intros (_ & _ & Hm). apply Hspec in Hm. discriminate Hm.
Qed.

Lemma X11_witness :
  events (snd (submit (Samples.world None None None) None
                 {| formData := Samples.context false false false;
                    recommendations := None; isGenerating := false;
                    validationWarning := None; showErrorModal := false;
                    errorMessage := "" |})) <> [].
Proof.
  apply (proj1 (X11_service_is_called_iff (Samples.world None None None) None
                  {| formData := Samples.context false false false;
                     recommendations := None; isGenerating := false;
                     validationWarning := None; showErrorModal := false;
                     errorMessage := "" |})).
  split; [intro H; vm_compute in H; discriminate H|].
  split; [intro H; vm_compute in H; discriminate H|].
  left. reflexivity.
Defined.

(** X12: a submit that passes both guards ends with the spinner off and
    the warning cleared, whatever the service did.  When the service
    returns, its value becomes the recommendations and the modal cells are
    not touched; when it throws, the recommendations are not touched and
    the modal opens with the message made from the error's message. *)
Theorem X12_submit_outcome
        (w : World) (handle : option OpenAI) (st : AppState) :
  ~ blank (companyName (formData st)) -> ~ blank (websiteUrl (formData st)) ->
  matches_spec (companyName (formData st)) (websiteUrl (formData st)) ->
  let final := fst (submit w handle st) in
  isGenerating final = false
  /\ validationWarning final = None
  /\ formData final = formData st
  /\ match fst (run (generateRecommendations w (formData st)) handle) with
     | Return recs =>
         recommendations final = Some recs
         /\ showErrorModal final = showErrorModal st
         /\ errorMessage final = errorMessage st
     | Throw e =>
         recommendations final = recommendations st
         /\ showErrorModal final = true
         /\ errorMessage final = modalMessage (message e)
     end.
Proof.
  intros Hn Hu Hm. cbv zeta.
  apply (validate_spec _ _ Hn Hu) in Hm.
  destruct (submit_request w handle st Hn Hu Hm) as (-> & _ & _).
  destruct (fst (run (generateRecommendations w (formData st)) handle));
    repeat split; reflexivity.
Qed.

Lemma X12_witness :
  let st := {| formData := Samples.context false false false;
               recommendations := None; isGenerating := false;
               validationWarning := Some "stale"; showErrorModal := false;
               errorMessage := "" |} in
  let final := fst (submit (Samples.world (Some Samples.plausibleKey) None None)
                      None st) in
  isGenerating final = false /\ validationWarning final = None
  /\ showErrorModal final = true
  /\ errorMessage final = "Error generating recommendations: No response from OpenAI".
Proof.
  cbv zeta.
  destruct (X12_submit_outcome
              (Samples.world (Some Samples.plausibleKey) None None) None
              {| formData := Samples.context false false false;
                 recommendations := None; isGenerating := false;
                 validationWarning := Some "stale"; showErrorModal := false;
                 errorMessage := "" |})
    as (H1 & H2 & _ & H4).
  - intro H; vm_compute in H; discriminate H.
  - intro H; vm_compute in H; discriminate H.
  - left. reflexivity.
  - cbv zeta in *.
    change (fst (run (generateRecommendations
                        (Samples.world (Some Samples.plausibleKey) None None)
                        (formData {| formData := Samples.context false false false;
                                     recommendations := None; isGenerating := false;
                                     validationWarning := Some "stale";
                                     showErrorModal := false; errorMessage := "" |}))
                   None))
      with (@Throw JSON.value ProviderResponseError) in H4.
    destruct H4 as (_ & H5 & H6).
    repeat split; assumption.
Defined.

Lemma credential_message_names_key (w : World) :
  JS.includes (message (CredentialError w)) "API key" = true.
Proof.
  apply includes_spec.
  exists "OpenAI ",
    (" is invalid or missing. Please check your .env.local file. Current key: "
     +:+ (if is_set (VITE_OPENAI_API_KEY w) then "Set but invalid" else "Not set")).
  reflexivity.
Qed.

(** X13: with an implausible primary key, a submit that passes both
    guards opens the modal with the configuration message around the
    credential error's text, turns the spinner off, keeps the
    recommendations, and has reached no collaborator. *)
Theorem X13_invalid_key_submit
        (w : World) (handle : option OpenAI) (st : AppState) :
  ~ blank (companyName (formData st)) -> ~ blank (websiteUrl (formData st)) ->
  matches_spec (companyName (formData st)) (websiteUrl (formData st)) ->
  isValidApiKey (VITE_OPENAI_API_KEY w) = false ->
  fst (submit w handle st)
  = {| formData := formData st; recommendations := recommendations st;
       isGenerating := false; validationWarning := None;
       showErrorModal := true;
       errorMessage :=
         "API configuration error: " +:+ message (CredentialError w) +:+ nl +:+ nl
         +:+ "Please check your .env.local file and ensure your OpenAI API key is valid." |}
  /\ Calls.kinds (snd (submit w handle st)) = []
  /\ openai (snd (submit w handle st)) = handle.
Proof.
  intros Hn Hu Hm Hkey.
  apply (validate_spec _ _ Hn Hu) in Hm.
  destruct (submit_request w handle st Hn Hu Hm) as (-> & Ho & He).
  unfold Calls.kinds. rewrite Ho, He.
  rewrite (invalid_primary_run w (formData st) handle Hkey).
  cbn [fst snd afterRequest events openai].
  unfold modalMessage. rewrite credential_message_names_key.
  repeat split; reflexivity.
Qed.

Lemma X13_witness :
  errorMessage
    (fst (submit (Samples.world None None None) None
            {| formData := Samples.context true false false;
               recommendations := None; isGenerating := false;
               validationWarning := None; showErrorModal := false;
               errorMessage := "" |}))
  = "API configuration error: OpenAI API key is invalid or missing. Please check your .env.local file. Current key: Not set"
    +:+ nl +:+ nl
    +:+ "Please check your .env.local file and ensure your OpenAI API key is valid.".
Proof.
  rewrite (proj1 (X13_invalid_key_submit (Samples.world None None None) None
                    {| formData := Samples.context true false false;
                       recommendations := None; isGenerating := false;
                       validationWarning := None; showErrorModal := false;
                       errorMessage := "" |}
                    ltac:(intro H; vm_compute in H; discriminate H)
                    ltac:(intro H; vm_compute in H; discriminate H)
                    ltac:(left; reflexivity) eq_refl)).
  reflexivity.
Defined.

Lemma gatherer_failure_result
      (w : World) (context : CompanyContext) (handle : option OpenAI)
      (failure : JsError) :
  isValidApiKey (VITE_OPENAI_API_KEY w) = true ->
  gatherCompanyIntelligence w (companyName context) (websiteUrl context)
  = Throw failure ->
  fst (run (generateRecommendations w context) handle) = Throw failure.
Proof.
  intros Hkey Hgather. run_monad. rewrite Hkey, Hgather.
  destruct (isValidApiKey (VITE_AWS_ACCESS_KEY_ID w)
            && isValidApiKey (VITE_AWS_SECRET_ACCESS_KEY w)); reflexivity.
Qed.

(** X14: the modal tells a configuration problem from the rest by the
    text of the error alone.  When the gatherer fails, the modal blames
    the OpenAI key configuration exactly when the gatherer's message
    happens to hold [API key], and shows the general message otherwise,
    although the primary key is plausible in both cases. *)
Theorem X14_gatherer_failure_in_modal
        (w : World) (handle : option OpenAI) (st : AppState) (failure : JsError) :
  ~ blank (companyName (formData st)) -> ~ blank (websiteUrl (formData st)) ->
  matches_spec (companyName (formData st)) (websiteUrl (formData st)) ->
  isValidApiKey (VITE_OPENAI_API_KEY w) = true ->
  gatherCompanyIntelligence w (companyName (formData st)) (websiteUrl (formData st))
  = Throw failure ->
  let final := fst (submit w handle st) in
  showErrorModal final = true
  /\ (contains (message failure) "API key" ->
      errorMessage final
      = "API configuration error: " +:+ message failure +:+ nl +:+ nl
        +:+ "Please check your .env.local file and ensure your OpenAI API key is valid.")
  /\ (~ contains (message failure) "API key" ->
      errorMessage final
      = "Error generating recommendations: " +:+ message failure).
Proof.
  intros Hn Hu Hm Hkey Hgather. cbv zeta.
  apply (validate_spec _ _ Hn Hu) in Hm.
  destruct (submit_request w handle st Hn Hu Hm) as (-> & _ & _).
  rewrite (gatherer_failure_result w (formData st) handle failure Hkey Hgather).
  cbn [afterRequest showErrorModal errorMessage]. unfold modalMessage.
  split; [reflexivity|]. split; intros Hc.
  - apply includes_spec in Hc. rewrite Hc. reflexivity.
  - destruct (JS.includes (message failure) "API key") eqn:Hi; [|reflexivity].
    apply includes_spec in Hi. contradiction.
Qed.

Lemma X14_witness :
  let searchDown := {| name := "Error"; message := "Search API key quota exceeded" |} in
  let w := {| VITE_OPENAI_API_KEY := Some Samples.plausibleKey;
              VITE_AWS_ACCESS_KEY_ID := None;
              VITE_AWS_SECRET_ACCESS_KEY := None;
              gatherCompanyIntelligence := fun _ _ => Throw searchDown;
              invokeClaude := fun _ => Throw Samples.bedrockDown;
              chat_completions_create := fun _ _ => Throw Samples.bedrockDown;
              JSON_parse := platform_JSON_parse |} in
  errorMessage
    (fst (submit w None
            {| formData := Samples.context true false false;
               recommendations := None; isGenerating := false;
               validationWarning := None; showErrorModal := false;
               errorMessage := "" |}))
  = "API configuration error: Search API key quota exceeded" +:+ nl +:+ nl
    +:+ "Please check your .env.local file and ensure your OpenAI API key is valid.".
Proof.
  cbv zeta.
  apply (proj1 (proj2 (X14_gatherer_failure_in_modal
           {| VITE_OPENAI_API_KEY := Some Samples.plausibleKey;
              VITE_AWS_ACCESS_KEY_ID := None;
              VITE_AWS_SECRET_ACCESS_KEY := None;
              gatherCompanyIntelligence :=
                fun _ _ => Throw {| name := "Error";
                                    message := "Search API key quota exceeded" |};
              invokeClaude := fun _ => Throw Samples.bedrockDown;
              chat_completions_create := fun _ _ => Throw Samples.bedrockDown;
              JSON_parse := platform_JSON_parse |}
           None
           {| formData := Samples.context true false false;
              recommendations := None; isGenerating := false;
              validationWarning := None; showErrorModal := false;
              errorMessage := "" |}
           {| name := "Error"; message := "Search API key quota exceeded" |}
           ltac:(intro H; vm_compute in H; discriminate H)
           ltac:(intro H; vm_compute in H; discriminate H)
           ltac:(left; reflexivity) eq_refl eq_refl))).
  exists "Search ", " quota exceeded". reflexivity.
Defined.

End Submit.

(** * The report view *)

Section ReportView.

Import Service.
Import AppComponent.

Lemma each_item (items : list JSON.value) : each itemCallback items = Return tt.
Proof. induction items as [|v items IH]; [reflexivity | exact IH]. Qed.

Lemma metricCallback_spec (metric : JSON.value) :
  match metric with
  | JSON.Null => exists e, metricCallback metric = Throw e /\ name e = "TypeError"
  | _ => metricCallback metric = Return tt
  end.
Proof. destruct metric; try reflexivity. eexists. split; reflexivity. Qed.

Lemma each_metric (metrics : list JSON.value) :
  (each metricCallback metrics = Return tt
   <-> Forall (fun metric => metric <> JSON.Null) metrics)
  /\ (forall e, each metricCallback metrics = Throw e -> name e = "TypeError").
Proof.
  induction metrics as [|m metrics [IH1 IH2]].
  - split; [split; [constructor | reflexivity] | discriminate].
  - pose proof (metricCallback_spec m) as Hm. cbn [each].
    destruct m;
      try (rewrite Hm; split;
           [rewrite IH1; split;
            [intros H; constructor; [discriminate | exact H]
            | intros H; inversion H; assumption]
           | exact IH2]).
    destruct Hm as (e & -> & He). split.
    + split; [discriminate|]. intros H. inversion H. congruence.
    + intros e' [= <-]. exact He.
Qed.

Lemma map_call_item (target : option JSON.value) :
  (map_call target itemCallback = Return tt
   <-> exists items, target = Some (JSON.Array items))
  /\ (forall e, map_call target itemCallback = Throw e -> name e = "TypeError").
Proof.
  destruct target as [[]|]; cbn [map_call]; rewrite ?each_item;
    (split; [split; [try discriminate; eauto | intros [? [=]]; reflexivity]
            | intros e [= <-]; reflexivity || discriminate]).
Qed.

Lemma insightBlock_spec (insights : JSON.value) (key : string) :
  (insightBlock (Some insights) key = Return tt <-> insightOk insights key)
  /\ (forall e, insightBlock (Some insights) key = Throw e -> name e = "TypeError").
Proof.
  unfold insightBlock, insightOk, read.
  destruct (property insights key) as [[v|]|e0] eqn:Hp.
  - cbn [falsy]. destruct (JSON.truthy v) eqn:Ht; cbn [negb].
    + destruct (map_call_item (Some v)) as [H1 H2].
      split; [|exact H2]. rewrite H1. split.
      * intros [items [= ->]]. right. eauto.
      * intros [?|[items ->]]; [discriminate | eauto].
    + split; [split; auto | discriminate].
  - split; [split; auto | discriminate].
  - split; [split; [discriminate | contradiction]|].
    intros e [= <-]. destruct insights; try discriminate.
    injection Hp as <-. reflexivity.
Qed.

Lemma insightBlock_falsy (insights : JSON.value) (key : string)
      (v : option JSON.value) :
  property insights key = Return v -> falsy v = true ->
  insightBlock (Some insights) key = Return tt.
Proof.
  intros Hp Hf. unfold insightBlock, read. rewrite Hp, Hf. reflexivity.
Qed.

(** The three blocks, one after the other. *)
Lemma blocks_in_turn (b1 b2 b3 : Result unit) :
  (forall e, b1 = Throw e -> name e = "TypeError") ->
  (forall e, b2 = Throw e -> name e = "TypeError") ->
  (forall e, b3 = Throw e -> name e = "TypeError") ->
  let part := match b1 with
              | Throw e => Throw e
              | Return _ => match b2 with
                            | Throw e => Throw e
                            | Return _ => b3
                            end
              end in
  (part = Return tt <-> b1 = Return tt /\ b2 = Return tt /\ b3 = Return tt)
  /\ (forall e, part = Throw e -> name e = "TypeError").
Proof.
  intros H1 H2 H3. cbv zeta.
  destruct b1 as [[]|e1]; [|split; [split; [discriminate | intros [[=] _]]
                                   | intros e [= <-]; auto]].
  destruct b2 as [[]|e2]; [|split; [split; [discriminate | intros (_ & [=] & _)]
                                   | intros e [= <-]; auto]].
  split; [tauto | exact H3].
Qed.

(** The part of the report that reads [conditionalInsights]. *)
Lemma insights_part (insights : option JSON.value) :
  let part :=
    match read insights "ppa" with
    | Throw e => Throw e
    | Return ppa =>
    match (if falsy ppa then read insights "genAI" else Return ppa) with
    | Throw e => Throw e
    | Return ppaOrGenAI =>
    match (if falsy ppaOrGenAI then read insights "cloudCostConcerns"
           else Return ppaOrGenAI) with
    | Throw e => Throw e
    | Return anyInsight =>
        if falsy anyInsight then Return tt
        else
          match insightBlock insights "ppa" with
          | Throw e => Throw e
          | Return _ =>
          match insightBlock insights "genAI" with
          | Throw e => Throw e
          | Return _ => insightBlock insights "cloudCostConcerns"
          end end
    end end end in
  (part = Return tt <->
   exists v, insights = Some v /\ insightOk v "ppa" /\ insightOk v "genAI"
             /\ insightOk v "cloudCostConcerns")
  /\ (forall e, part = Throw e -> name e = "TypeError").
Proof.
  cbv zeta. destruct insights as [v|].
  2:{ cbn [read]. split; [split; [discriminate | intros (? & [=] & _)]|].
      intros e [= <-]. reflexivity. }
  destruct (insightBlock_spec v "ppa") as [P1 P2].
  destruct (insightBlock_spec v "genAI") as [G1 G2].
  destruct (insightBlock_spec v "cloudCostConcerns") as [C1 C2].
  cbn [read].
  destruct (property v "ppa") as [p|e0] eqn:Hp.
  2:{ split.
      - split; [discriminate|]. intros (v' & [= <-] & H & _).
        unfold insightOk in H. rewrite Hp in H. contradiction.
      - intros e [= <-]. destruct v; try discriminate.
        injection Hp as <-. reflexivity. }
  assert (forall key, exists o, property v key = Return o) as Hread.
  { intros key. destruct v; try (eexists; reflexivity). discriminate Hp. }
  destruct (Hread "genAI") as [g Hg]. destruct (Hread "cloudCostConcerns") as [c Hc].
  assert ((exists v', Some v = Some v' /\ insightOk v' "ppa" /\ insightOk v' "genAI"
                      /\ insightOk v' "cloudCostConcerns")
          <-> insightBlock (Some v) "ppa" = Return tt
              /\ insightBlock (Some v) "genAI" = Return tt
              /\ insightBlock (Some v) "cloudCostConcerns" = Return tt)
    as ->.
  { rewrite P1, G1, C1.
    split; [intros (v' & [= <-] & H); exact H | intros H; exists v; auto]. }
  pose proof (blocks_in_turn _ _ _ P2 G2 C2) as Hseq. cbv zeta in Hseq.
  pose proof (insightBlock_falsy v "ppa" p Hp) as Bp.
  pose proof (insightBlock_falsy v "genAI" g Hg) as Bg.
  pose proof (insightBlock_falsy v "cloudCostConcerns" c Hc) as Bc.
  destruct (falsy p) eqn:Fp;
    [|repeat (cbv beta iota; rewrite ?Fp); exact Hseq].
  cbv beta iota. rewrite Hg. cbv beta iota. destruct (falsy g) eqn:Fg;
    [|repeat (cbv beta iota; rewrite ?Fg); exact Hseq].
  cbv beta iota. rewrite Hc. cbv beta iota. destruct (falsy c) eqn:Fc;
    [|repeat (cbv beta iota; rewrite ?Fc); exact Hseq].
  split; [|discriminate]. split; auto.
Qed.

Lemma map_call_metric (target : option JSON.value) :
  (map_call target metricCallback = Return tt
   <-> exists metrics, target = Some (JSON.Array metrics)
                       /\ Forall (fun metric => metric <> JSON.Null) metrics)
  /\ (forall e, map_call target metricCallback = Throw e -> name e = "TypeError").
Proof.
  destruct target as [[]|]; cbn [map_call];
    try (split; [split; [discriminate | intros (? & [=] & _)]
                | intros e [= <-]; reflexivity]).
  destruct (each_metric items) as [H1 H2]. split; [|exact H2].
  rewrite H1. split; [eauto|]. intros (metrics & [= <-] & H). exact H.
Qed.

Lemma reportView_object (members : list (string * JSON.value)) :
  (reportView (JSON.Object members) = Return tt
   <-> (exists metrics, JSON.member "unitMetrics" members = Some (JSON.Array metrics)
                        /\ Forall (fun metric => metric <> JSON.Null) metrics)
       /\ (exists starters,
              JSON.member "conversationStarters" members = Some (JSON.Array starters))
       /\ (exists insights,
              JSON.member "conditionalInsights" members = Some insights
              /\ insightOk insights "ppa" /\ insightOk insights "genAI"
              /\ insightOk insights "cloudCostConcerns"))
  /\ (forall e, reportView (JSON.Object members) = Throw e -> name e = "TypeError").
Proof.
  unfold reportView. cbn [property].
  destruct (map_call_metric (JSON.member "unitMetrics" members)) as [M1 M2].
  destruct (map_call_item (JSON.member "conversationStarters" members)) as [S1 S2].
  pose proof (insights_part (JSON.member "conditionalInsights" members)) as HI.
  cbv zeta in HI. destruct HI as [I1 I2].
  rewrite <- M1, <- S1, <- I1.
  destruct (map_call (JSON.member "unitMetrics" members) metricCallback) as [[]|e1];
    [|split; [split; [discriminate | intros [[=] _]] | intros e [= <-]; auto]].
  destruct (map_call (JSON.member "conversationStarters" members) itemCallback)
    as [[]|e2];
    [|split; [split; [discriminate | intros (_ & [=] & _)] | intros e [= <-]; auto]].
  split; [tauto | exact I2].
Qed.

(** X15: evaluating the report on a value succeeds exactly when the value
    is an object whose [unitMetrics] is an array without [null] items,
    whose [conversationStarters] is an array and whose
    [conditionalInsights] is present, not [null], and holds under each of
    [ppa], [genAI] and [cloudCostConcerns] nothing, a falsy value or an
    array.  On every other value it throws a [TypeError]. *)
Theorem X15_report_needs (r : JSON.value) :
  (reportView r = Return tt <-> displayable r)
  /\ (forall e, reportView r = Throw e -> name e = "TypeError").
Proof.
  unfold displayable.
  destruct r;
    try (split; [split; [discriminate | intros (? & ? & ? & ? & [=] & _)]
                | intros e [= <-]; reflexivity]).
  destruct (reportView_object members) as [H1 H2]. split; [|exact H2].
  rewrite H1. split.
  - intros ((metrics & Hm & Hf) & (starters & Hs) & (insights & Hi & Hp & Hg & Hc)).
    exists members, metrics, starters, insights. auto 10.
  - intros (members' & metrics & starters & insights & [= <-] & Hm & Hf & Hs & Hi
            & Hp & Hg & Hc).
    eauto 10.
Qed.

Lemma X15_witness :
  reportView
    (JSON.Object [ ("unitMetrics", JSON.Array [ JSON.Object [ ("title", JSON.Str "t") ] ]);
                   ("conversationStarters", JSON.Array []);
                   ("conditionalInsights",
                    JSON.Object [ ("ppa", JSON.Array [ JSON.Str "q" ]);
                                  ("genAI", JSON.Null) ]) ])
  = Return tt
  /\ (exists e,
         reportView
           (JSON.Object [ ("unitMetrics", JSON.Array []);
                          ("conversationStarters", JSON.Array []);
                          ("conditionalInsights",
                           JSON.Object [ ("ppa", JSON.Str "ask about PPAs") ]) ])
         = Throw e /\ name e = "TypeError").
Proof.
  split.
  - apply (proj1 (X15_report_needs _)).
    eexists _, _, _, _. split; [reflexivity|].
    split; [reflexivity|]. split; [repeat constructor; discriminate|].
    split; [reflexivity|]. split; [reflexivity|].
    split; [right; eexists; reflexivity|]. split; [left; reflexivity | exact I].
  - destruct (reportView
                (JSON.Object [ ("unitMetrics", JSON.Array []);
                               ("conversationStarters", JSON.Array []);
                               ("conditionalInsights",
                                JSON.Object [ ("ppa", JSON.Str "ask about PPAs") ]) ]))
      as [[]|e] eqn:Hr.
    + vm_compute in Hr. discriminate Hr.
    + exists e. split; [reflexivity|].
      apply (proj2 (X15_report_needs _) e Hr).
Defined.

(** X16: what the structure check lets through need not be displayable.
    An object whose [unitMetrics] and [conversationStarters] are arrays
    but which has no [conditionalInsights] passes the check, and
    evaluating the report on it throws a [TypeError]. *)
Theorem X16_checked_reply_can_break_report
        (members : list (string * JSON.value)) (metrics starters : list JSON.value) :
  JSON.member "unitMetrics" members = Some (JSON.Array metrics) ->
  JSON.member "conversationStarters" members = Some (JSON.Array starters) ->
  JSON.member "conditionalInsights" members = None ->
  validateStructure (JSON.Object members) = Return tt
  /\ exists e, reportView (JSON.Object members) = Throw e /\ name e = "TypeError".
Proof.
  intros Hm Hs Hi. split.
  - unfold validateStructure, property. rewrite Hm, Hs. reflexivity.
  - destruct (reportView_object members) as [H1 H2].
    destruct (reportView (JSON.Object members)) as [[]|e] eqn:Hr.
    + destruct (proj1 H1 eq_refl) as (_ & _ & (insights & Hsome & _)).
      congruence.
    + exists e. split; [reflexivity | apply H2; reflexivity].
Qed.

Lemma X16_witness :
  validateStructure
    (JSON.Object [ ("unitMetrics", JSON.Array []);
                   ("conversationStarters", JSON.Array []) ]) = Return tt
  /\ exists e,
      reportView (JSON.Object [ ("unitMetrics", JSON.Array []);
                                ("conversationStarters", JSON.Array []) ])
      = Throw e /\ name e = "TypeError".
Proof.
  apply (X16_checked_reply_can_break_report
           [ ("unitMetrics", JSON.Array []); ("conversationStarters", JSON.Array []) ]
           [] []); reflexivity.
Defined.

(** X17: the report can always be evaluated on what
    [getFallbackRecommendations] builds, whatever the context. *)
Theorem X17_fallback_is_displayable (context : CompanyContext) :
  reportView (recommendation_value (getFallbackRecommendations context)) = Return tt.
Proof.
  destruct context as [n u e [] [] []]; reflexivity.
Qed.

End ReportView.

(** * From a submit to the screen *)

Section Screen.

Import Service.
Import AppComponent.
Import IdentityValidator.

Ltac run_monad :=
  unfold run, generateRecommendations, getIndustryAnalysis, getOpenAI,
    try_catch, mbind, M_bind, bind, emit, throw, ret, lift;
  cbn [openai events fst snd].

Ltac step :=
  cbn -[buildEnhancedPrompt chatRequest cleanResponse validateStructure
        first_content keyPreview isValidApiKey industryPrompt industryFallback
        CredentialError ParseError].

Ltac explore :=
  repeat (step;
          match goal with
          | |- context [match ?x with _ => _ end] =>
              lazymatch x with
              | context [match _ with _ => _ end] => fail
              | _ => destruct x eqn:?
              end
          end);
  step.

(** What a request returns has passed the structure check. *)
Lemma returned_value_is_checked
      (w : World) (context : CompanyContext) (handle : option OpenAI)
      (r : JSON.value) :
  fst (run (generateRecommendations w context) handle) = Return r ->
  validateStructure r = Return tt.
Proof.
  run_monad. explore; intros [= <-] || discriminate.
  all: match goal with
       | H : validateStructure ?v = Return ?u |- validateStructure ?v = Return tt =>
           destruct u; exact H
       end.
Qed.

(** X18: after a submit in which the service returns a value, the
    component's render function returns the report exactly when that
    value is displayable; when it is not, the render function throws a
    [TypeError] although the value has passed the service's structure
    check. *)
Theorem X18_screen_after_submit
        (w : World) (handle : option OpenAI) (st : AppState) (r : JSON.value) :
  ~ blank (companyName (formData st)) -> ~ blank (websiteUrl (formData st)) ->
  matches_spec (companyName (formData st)) (websiteUrl (formData st)) ->
  fst (run (generateRecommendations w (formData st)) handle) = Return r ->
  let final := fst (submit w handle st) in
  recommendations final = Some r
  /\ validateStructure r = Return tt
  /\ (render final = Return Report <-> displayable r)
  /\ (~ displayable r -> exists e, render final = Throw e /\ name e = "TypeError").
Proof.
  intros Hn Hu Hm Hr. cbv zeta.
  pose proof (returned_value_is_checked w (formData st) handle r Hr) as Hcheck.
  apply (validate_spec _ _ Hn Hu) in Hm.
  destruct (submit_request w handle st Hn Hu Hm) as (-> & _ & _).
  rewrite Hr. cbn [afterRequest recommendations].
  split; [reflexivity|]. split; [exact Hcheck|].
  unfold render. cbn [isGenerating recommendations falsy].
  assert (JSON.truthy r = true) as ->.
  { destruct r; try discriminate Hcheck; reflexivity. }
  cbn [negb].
  destruct r as [| | | | |members]; try discriminate Hcheck.
  destruct (reportView_object members) as [H1 H2].
  assert (reportView (JSON.Object members) = Return tt
          <-> displayable (JSON.Object members)) as H1'.
  { rewrite H1. unfold displayable. split.
    - intros ((metrics & Hm' & Hf) & (starters & Hs) & (insights & Hi & Hp & Hg & Hc)).
      exists members, metrics, starters, insights. auto 10.
    - intros (members' & metrics & starters & insights & [= <-] & Hm' & Hf & Hs & Hi
              & Hp & Hg & Hc).
      eauto 10. }
  destruct (reportView (JSON.Object members)) as [[]|e] eqn:Hv.
  - split; [split; [intros _; apply H1'; reflexivity | reflexivity]|].
    intros Hnot. exfalso. apply Hnot, H1'. reflexivity.
  - split; [split; [discriminate | intros Hd; apply H1' in Hd; discriminate Hd]|].
    intros _. exists e. split; [reflexivity | apply H2; reflexivity].
Qed.

Lemma X18_witness :
  let w := Samples.world (Some Samples.plausibleKey) None (Some Replies.bare) in
  let final := fst (submit w None Replies.filledForm) in
  recommendations final = Some Replies.bareValue
  /\ validateStructure Replies.bareValue = Return tt
  /\ exists e, render final = Throw e /\ name e = "TypeError".
Proof.
  cbv zeta.
  destruct (X18_screen_after_submit
              (Samples.world (Some Samples.plausibleKey) None (Some Replies.bare))
              None Replies.filledForm Replies.bareValue)
    as (H1 & H2 & _ & H4).
  - intro H; vm_compute in H; discriminate H.
  - intro H; vm_compute in H; discriminate H.
  - left. reflexivity.
  - vm_compute. reflexivity.
  - cbv zeta in *. split; [exact H1|]. split; [exact H2|].
    apply H4.
    intros (members & metrics & starters & insights & [= <-] & _ & _ & _ & Hi & _).
    vm_compute in Hi. discriminate Hi.
Defined.

End Screen.

(** * More on the identity validator *)

Section ValidatorExtras.

Import IdentityValidator.

Lemma space_lower (c : ascii) : JS.is_space (JS.lower_char c) = JS.is_space c.
Proof. destruct c as [[] [] [] [] [] [] [] []]; reflexivity. Qed.

Lemma letter_or_digit_not_space (c : ascii) :
  is_letter_or_digit c = true -> JS.is_space c = false.
Proof. destruct c as [[] [] [] [] [] [] [] []]; vm_compute; congruence. Qed.

Lemma alnum_not_dot (c : ascii) :
  JS.is_alnum c = true -> Ascii.eqb c "."%char = false.
Proof. destruct c as [[] [] [] [] [] [] [] []]; vm_compute; congruence. Qed.

Lemma truthy_trim (s : string) :
  JS.truthy (JS.trim s) = negb (JS.every JS.is_space (JS.toLowerCase s)).
Proof.
  unfold JS.toLowerCase. rewrite every_map.
  assert (JS.every (fun c => JS.is_space (JS.lower_char c)) s = JS.every JS.is_space s)
    as ->.
  { induction s as [|c s IH]; [reflexivity|]. cbn [JS.every].
    rewrite space_lower, IH. reflexivity. }
  destruct (JS.every JS.is_space s) eqn:Hs.
  - apply trim_empty in Hs. rewrite Hs. reflexivity.
  - destruct (JS.truthy (JS.trim s)) eqn:Ht; [reflexivity|].
    apply truthy_false, trim_empty in Ht. unfold blank in Ht. congruence.
Qed.

Lemma validate_lower_only (companyName companyName' websiteUrl websiteUrl' : string) :
  JS.toLowerCase companyName = JS.toLowerCase companyName' ->
  JS.toLowerCase websiteUrl = JS.toLowerCase websiteUrl' ->
  App.validateCompanyUrlMatch companyName websiteUrl
  = App.validateCompanyUrlMatch companyName' websiteUrl'.
Proof.
  intros Hn Hu.
  unfold App.validateCompanyUrlMatch, App.cleanCompanyName, App.cleanUrl.
  rewrite !truthy_trim, Hn, Hu. reflexivity.
Qed.

(** X19: the validator reads its two inputs only through their lower-cased
    forms: inputs that differ in letter case alone get the same answer. *)
Theorem X19_validator_ignores_case (companyName companyName' websiteUrl websiteUrl' : string) :
  JS.toLowerCase companyName = JS.toLowerCase companyName' ->
  JS.toLowerCase websiteUrl = JS.toLowerCase websiteUrl' ->
  App.validateCompanyUrlMatch companyName websiteUrl
  = App.validateCompanyUrlMatch companyName' websiteUrl'.
Proof.
  intros Hn Hu.
  unfold App.validateCompanyUrlMatch, App.cleanCompanyName, App.cleanUrl.
  rewrite !truthy_trim. rewrite Hn, Hu. reflexivity.
Qed.

Lemma X19_witness :
  App.validateCompanyUrlMatch "CLOUDZERO" "HTTPS://WWW.CloudZero.COM"
  = App.validateCompanyUrlMatch "CloudZero" "https://www.cloudzero.com".
Proof.
  apply (X19_validator_ignores_case "CLOUDZERO" "CloudZero"
           "HTTPS://WWW.CloudZero.COM" "https://www.cloudzero.com");
    reflexivity.
Defined.

Lemma map_append (f : ascii -> ascii) (s t : string) :
  JS.map f (s +:+ t) = JS.map f s +:+ JS.map f t.
Proof.
  induction s as [|c s IH]; [reflexivity|].
  rewrite append_cons. cbn [JS.map]. rewrite IH. reflexivity.
Qed.

Lemma map_length (f : ascii -> ascii) (s : string) :
  String.length (JS.map f s) = String.length s.
Proof. induction s as [|c s IH]; [reflexivity|]. cbn. rewrite IH. reflexivity. Qed.

Lemma keep_every (p : ascii -> bool) (s : string) :
  JS.every p s = true -> JS.keep p s = s.
Proof.
  induction s as [|c s IH]; [reflexivity|]. cbn [JS.every JS.keep].
  intros [Hc Hs]%andb_true_iff. rewrite Hc, (IH Hs). reflexivity.
Qed.

Lemma before_first_label (label rest : string) :
  JS.every JS.is_alnum label = true ->
  JS.before_first "."%char (label +:+ "." +:+ rest) = label.
Proof.
  induction label as [|c label IH]; [reflexivity|]. cbn [JS.every].
  intros [Hc Hs]%andb_true_iff.
  rewrite append_cons. cbn [JS.before_first].
  rewrite (alnum_not_dot c Hc), (IH Hs). reflexivity.
Qed.

Lemma split_ws_go_one_word (s cur : string) :
  JS.every (fun c => negb (JS.is_space c)) s = true ->
  JS.split_ws_go cur false s = [String.rev cur +:+ s].
Proof.
  revert cur. induction s as [|c s IH]; intros cur.
  - intros _. cbn. rewrite append_nil_r. reflexivity.
  - cbn [JS.every JS.split_ws_go]. intros [Hc Hs]%andb_true_iff.
    apply negb_true_iff in Hc. rewrite Hc, (IH _ Hs), rev_cons, append_assoc.
    reflexivity.
Qed.

Lemma includes_refl (s : string) : JS.includes s s = true.
Proof.
  apply includes_spec. exists "", "". rewrite append_nil_r. reflexivity.
Qed.

Lemma cleanUrl_of_own_domain (scheme label rest : string) :
  scheme = "https://" \/ scheme = "http://" ->
  JS.every JS.is_alnum label = true ->
  App.cleanUrl (scheme +:+ "www." +:+ label +:+ "." +:+ rest) = label.
Proof.
  intros Hs Hl.
  assert (App.cleanUrl (scheme +:+ "www." +:+ label +:+ "." +:+ rest)
          = JS.keep JS.is_alnum
              (JS.before_first "."%char (JS.toLowerCase (label +:+ "." +:+ rest)))) as ->
    by (destruct Hs as [-> | ->]; reflexivity).
  unfold JS.toLowerCase. rewrite map_append.
  assert (JS.map JS.lower_char label = label) as ->.
  { clear Hs. induction label as [|c label IH]; [reflexivity|].
    cbn [JS.every] in Hl. apply andb_true_iff in Hl as [Hc Hl].
    cbn [JS.map]. rewrite (IH Hl). f_equal.
    revert Hc. destruct c as [[] [] [] [] [] [] [] []]; vm_compute; congruence. }
  rewrite map_append.
  change (JS.map JS.lower_char ".") with ".".
  rewrite before_first_label by exact Hl.
  apply keep_every, Hl.
Qed.

Lemma lower_char_idempotent (c : ascii) :
  JS.lower_char (JS.lower_char c) = JS.lower_char c.
Proof. destruct c as [[] [] [] [] [] [] [] []]; reflexivity. Qed.

Lemma toLowerCase_idempotent (s : string) :
  JS.toLowerCase (JS.toLowerCase s) = JS.toLowerCase s.
Proof.
  unfold JS.toLowerCase. induction s as [|c s IH]; [reflexivity|].
  cbn [JS.map]. rewrite lower_char_idempotent. f_equal. exact IH.
Qed.

(** The own-domain match on a lower-case label. *)
Lemma own_domain_lower (label scheme rest : string) :
  JS.every JS.is_alnum label = true ->
  JS.toLowerCase label = label ->
  3 <= String.length label ->
  scheme = "https://" \/ scheme = "http://" ->
  App.validateCompanyUrlMatch label (scheme +:+ "www." +:+ label +:+ "." +:+ rest)
  = true.
Proof.
  intros Hlow Hidem Hlen Hs.
  assert (~ blank label) as Hn.
  { unfold blank. destruct label as [|c s]; [simpl in Hlen; lia|].
    cbn [JS.every] in *. apply andb_true_iff in Hlow as [Hc _].
    pose proof (alnum_not_space c) as Ha. rewrite Hc in Ha. cbn in Ha.
    rewrite Ha. discriminate. }
  assert (~ blank (scheme +:+ "www." +:+ label +:+ "." +:+ rest)) as Hu.
  { unfold blank. destruct Hs as [-> | ->]; discriminate. }
  assert (App.word_loop label (JS.split_ws (JS.toLowerCase label)) = true) as Hw.
  { rewrite Hidem. unfold JS.split_ws.
    rewrite split_ws_go_one_word.
    - change (String.rev "" +:+ label) with label.
      cbn [App.word_loop]. rewrite (keep_every _ _ Hlow), includes_refl.
      apply Nat.leb_le in Hlen. rewrite Hlen. reflexivity.
    - erewrite every_impl; [reflexivity| |exact Hlow].
      intros c Hc. pose proof (alnum_not_space c) as Ha. rewrite Hc in Ha.
      cbn in Ha. rewrite Ha. reflexivity. }
  unfold App.validateCompanyUrlMatch.
  rewrite (guard_passes _ Hn), (guard_passes _ Hu).
  rewrite (cleanUrl_of_own_domain scheme label rest Hs Hlow).
  cbv zeta. rewrite Hw. cbn [orb].
  repeat match goal with
         | |- (if ?b then true else _) = true => destruct b; [reflexivity|]
         end.
  reflexivity.
Qed.

(** X20: a company whose name is one run of at least three letters and
    digits matches the address made of [http://] or [https://], [www.],
    that name and any top-level part: the name's own domain always
    passes. *)
Theorem X20_own_domain_matches (companyName scheme rest : string) :
  JS.every is_letter_or_digit companyName = true ->
  3 <= String.length companyName ->
  scheme = "https://" \/ scheme = "http://" ->
  App.validateCompanyUrlMatch companyName
    (scheme +:+ "www." +:+ companyName +:+ "." +:+ rest) = true.
Proof.
  intros Hl Hlen Hs.
  assert (JS.every JS.is_alnum (JS.toLowerCase companyName) = true) as Hlow.
  { unfold JS.toLowerCase. rewrite every_map.
    erewrite every_impl; [reflexivity| |exact Hl].
    intros c Hc. rewrite lower_alnum. exact Hc. }
  rewrite (validate_lower_only companyName (JS.toLowerCase companyName)
             (scheme +:+ "www." +:+ companyName +:+ "." +:+ rest)
             (scheme +:+ "www." +:+ JS.toLowerCase companyName +:+ "." +:+ rest)).
  - apply own_domain_lower; try assumption.
    + apply toLowerCase_idempotent.
    + unfold JS.toLowerCase. rewrite map_length. exact Hlen.
  - symmetry. apply toLowerCase_idempotent.
  - pose proof (toLowerCase_idempotent companyName) as Hi.
    unfold JS.toLowerCase in *. rewrite !map_append, Hi. reflexivity.
Qed.

Lemma X20_witness :
  App.validateCompanyUrlMatch "Stripe" "https://www.Stripe.io/payments" = true.
Proof.
  apply (X20_own_domain_matches "Stripe" "https://" "io/payments");
    [reflexivity | simpl; lia | left; reflexivity].
Defined.

End ValidatorExtras.

(** * Starting over *)

Section Reset.

Import Service.
Import AppComponent.
Import IdentityValidator (blank).

(** X21: "New Analysis" always leads back to an empty form.  From any
    state that is not generating, after [handleReset] the render function
    returns the form, also when the stored recommendations could not be
    rendered; the warning and the modal cells are left as they were; and a
    submit right after it is refused with the missing-input message
    without calling the service. *)
Theorem X21_reset_returns_to_form
        (w : World) (handle : option OpenAI) (st : AppState) :
  isGenerating st = false ->
  let fresh := apply_updates st handleReset in
  render fresh = Return Form
  /\ formData fresh = emptyForm
  /\ validationWarning fresh = validationWarning st
  /\ showErrorModal fresh = showErrorModal st
  /\ errorMessage fresh = errorMessage st
  /\ errorMessage (fst (submit w handle fresh)) = missingInputMessage
  /\ showErrorModal (fst (submit w handle fresh)) = true
  /\ snd (submit w handle fresh) = {| openai := handle; events := [] |}.
Proof.
  intros Hg. cbv zeta.
  assert (blank (companyName (formData (apply_updates st handleReset)))
          \/ blank (websiteUrl (formData (apply_updates st handleReset)))) as Hb
    by (left; reflexivity).
  rewrite (submit_blank w handle _ Hb).
  unfold render. cbn [apply_updates handleReset fold_left apply_update isGenerating
                      recommendations formData validationWarning showErrorModal
                      errorMessage falsy negb fst snd].
  rewrite Hg. repeat split; reflexivity.
Qed.

Lemma X21_witness :
  let broken := {| formData := Samples.context false false false;
                   recommendations := Some Replies.bareValue;
                   isGenerating := false; validationWarning := None;
                   showErrorModal := false; errorMessage := "" |} in
  (exists e, render broken = Throw e)
  /\ render (apply_updates broken handleReset) = Return Form.
Proof.
  cbv zeta. split; [eexists; vm_compute; reflexivity|].
  apply (X21_reset_returns_to_form (Samples.world None None None) None
           {| formData := Samples.context false false false;
              recommendations := Some Replies.bareValue;
              isGenerating := false; validationWarning := None;
              showErrorModal := false; errorMessage := "" |}).
  reflexivity.
Defined.

End Reset.
